(** * A shallow embedding of duckagent (router, planner, orchestrator,
    run-payload mapping and graph adapter) and the properties of its spec. *)

From Stdlib Require Import String Ascii List ZArith QArith Bool Lia.
From Stdlib Require Import Numbers.DecimalString.
From Stdlib Require Import DecimalNat.
Import ListNotations.
Set Warnings "-register-all".
Close Scope Q_scope.
Open Scope nat_scope.
Open Scope string_scope.

(** ** Python values *)

(** Runtime values as the Python code sees them.  [PObj] stands for an
    opaque object (database connection, cursor, LLM client, DataFrame),
    identified by a tag; it is truthy, as Python objects are by default.
    A [PDict] lists its entries in insertion order, with distinct keys as
    in any Python dict. *)
Inductive pyval : Type :=
| PNone
| PBool (b : bool)
| PInt (z : Z)
| PStr (s : string)
| PList (l : list pyval)
| PDict (kvs : list (pyval * pyval))
| PObj (tag : string).

(** A Python computation either returns or raises an exception. *)
Inductive res (A : Type) : Type :=
| Ok (a : A)
| Err (msg : string).
Arguments Ok {A} a.
Arguments Err {A} msg.

Definition bind {A B} (r : res A) (f : A -> res B) : res B :=
  match r with Ok a => f a | Err m => Err m end.

Notation "x <- r ;; k" := (bind r (fun x => k))
  (at level 61, r at next level, right associativity).

(** [bool(v)] *)
Definition truthy (v : pyval) : bool :=
  match v with
  | PNone => false
  | PBool b => b
  | PInt z => negb (Z.eqb z 0)
  | PStr s => negb (String.eqb s "")
  | PList l => match l with [] => false | _ => true end
  | PDict kvs => match kvs with [] => false | _ => true end
  | PObj _ => true
  end.

(** [d.get(k)] for a string key [k]: the value of the entry whose key
    equals [k], if any. *)
Fixpoint dget (kvs : list (pyval * pyval)) (k : string) : option pyval :=
  match kvs with
  | [] => None
  | (PStr k', v) :: rest => if String.eqb k' k then Some v else dget rest k
  | _ :: rest => dget rest k
  end.

(** [d.get(k, default)] *)
Definition dget_or (kvs : list (pyval * pyval)) (k : string) (dflt : pyval) : pyval :=
  match dget kvs k with Some v => v | None => dflt end.

(** ** Characters and strings *)

(** Characters are code points 0..255 (ASCII and Latin-1). *)
Definition code (c : ascii) : nat := nat_of_ascii c.

Definition in_range (lo hi n : nat) : bool := Nat.leb lo n && Nat.leb n hi.

(** [str.lower()] on code points 0..255. *)
Definition lower_char (c : ascii) : ascii :=
  let n := code c in
  if in_range 65 90 n || (in_range 192 222 n && negb (Nat.eqb n 215))
  then ascii_of_nat (n + 32) else c.

Fixpoint lower (s : string) : string :=
  match s with
  | EmptyString => EmptyString
  | String c r => String (lower_char c) (lower r)
  end.

(** [sub in s] *)
Fixpoint contains (sub s : string) : bool :=
  prefix sub s || match s with EmptyString => false | String _ r => contains sub r end.

Fixpoint drop (n : nat) (s : string) : string :=
  match n, s with
  | O, _ => s
  | S _, EmptyString => EmptyString
  | S n', String _ r => drop n' r
  end.

(** ** Redaction: [_redact_value] and [_redact] (langgraph_adapter.py) *)

Module Redaction.

Definition REDACTED : string := "<REDACTED>".

(** The character class [A-Za-z0-9_\-]. *)
Definition token_char (c : ascii) : bool :=
  let n := code c in
  in_range 65 90 n || in_range 97 122 n || in_range 48 57 n
  || Nat.eqb n 95 || Nat.eqb n 45.

(** At least [n] characters of the class follow. *)
Fixpoint token_run (n : nat) (s : string) : bool :=
  match n with
  | O => true
  | S n' => match s with
            | EmptyString => false
            | String c r => token_char c && token_run n' r
            end
  end.

(** [re.search(r"sk-[A-Za-z0-9_\-]{8,}", s)] succeeds iff at some position
    "sk-" is followed by eight characters of the class. *)
Definition secret_at (s : string) : bool :=
  prefix "sk-" s && token_run 8 (drop 3 s).

Fixpoint has_secret (s : string) : bool :=
  secret_at s || match s with EmptyString => false | String _ r => has_secret r end.

Definition _redact_value (v : pyval) : pyval :=
  match v with
  | PStr s => if has_secret s then PStr REDACTED else v
  | _ => v
  end.

Definition SENSITIVE : list string := ["key"; "secret"; "token"; "password"; "api"].

(** [any(s in kl for s in (...))] with [kl = k.lower()]. *)
Definition sensitive_key (k : string) : bool :=
  existsb (fun w => contains w (lower k)) SENSITIVE.

(** The loop of [_redact] over [obj.items()]: [k.lower()] raises on a key
    that is not a string; [f] is the recursive call. *)
Fixpoint redact_entries (f : pyval -> res pyval) (kvs : list (pyval * pyval))
  : res (list (pyval * pyval)) :=
  match kvs with
  | [] => Ok []
  | (k, x) :: rest =>
      match k with
      | PStr ks =>
          if sensitive_key ks
          then rest' <- redact_entries f rest ;; Ok ((k, PStr REDACTED) :: rest')
          else x' <- f x ;; rest' <- redact_entries f rest ;; Ok ((k, x') :: rest')
      | _ => Err "AttributeError: object has no attribute 'lower'"
      end
  end.

(** [[_redact(v) for v in obj]] *)
Fixpoint redact_items (f : pyval -> res pyval) (l : list pyval) : res (list pyval) :=
  match l with
  | [] => Ok []
  | x :: r => x' <- f x ;; r' <- redact_items f r ;; Ok (x' :: r')
  end.

Fixpoint _redact (v : pyval) : res pyval :=
  match v with
  | PDict kvs => kvs' <- redact_entries _redact kvs ;; Ok (PDict kvs')
  | PList l => l' <- redact_items _redact l ;; Ok (PList l')
  | _ => Ok (_redact_value v)
  end.

(** JSON-like values: every mapping key is a string. *)
Fixpoint json_like (v : pyval) : bool :=
  match v with
  | PDict kvs =>
      forallb (fun '(k, x) => match k with PStr _ => json_like x | _ => false end) kvs
  | PList l => forallb json_like l
  | _ => true
  end.

(** Paths into a value: a mapping key or a list index. *)
Inductive pstep := SKey (k : string) | SIdx (n : nat).

Fixpoint get_path (p : list pstep) (v : pyval) : option pyval :=
  match p with
  | [] => Some v
  | SKey k :: p' =>
      match v with
      | PDict kvs => match dget kvs k with Some x => get_path p' x | None => None end
      | _ => None
      end
  | SIdx n :: p' =>
      match v with
      | PList l => match nth_error l n with Some x => get_path p' x | None => None end
      | _ => None
      end
  end.

(** A path that does not go through a sensitive key (below such a key the
    whole value is replaced by the marker). *)
Definition clean (p : list pstep) : bool :=
  forallb (fun st => match st with SKey k => negb (sensitive_key k) | SIdx _ => true end) p.

Definition is_container (v : pyval) : bool :=
  match v with PDict _ | PList _ => true | _ => false end.

End Redaction.

(** ** Intent router: [Router.detect_intent] (router.py) *)

Module Router.

(** [\w] on code points 0..255: ASCII letters, digits and underscore, and
    the Latin-1 characters for which [str.isalnum()] holds. *)
Definition word_char (c : ascii) : bool :=
  let n := code c in
  in_range 48 57 n || in_range 65 90 n || in_range 97 122 n || Nat.eqb n 95
  || Nat.eqb n 170 || in_range 178 179 n || Nat.eqb n 181 || in_range 185 186 n
  || in_range 188 190 n || in_range 192 214 n || in_range 216 246 n
  || in_range 248 255 n.

Definition word_at (s : string) (i : nat) : bool :=
  match String.get i s with Some c => word_char c | None => false end.

(** [\b] at position [i]: the characters on its two sides differ in being
    word characters (outside the string counts as a non-word character). *)
Definition boundary (s : string) (i : nat) : bool :=
  match i with
  | O => word_at s 0
  | S j => xorb (word_at s j) (word_at s i)
  end.

(** [\b w \b] matches at position [i]. *)
Definition match_at (s : string) (i : nat) (w : string) : bool :=
  boundary s i && prefix w (drop i s) && boundary s (i + String.length w).

(** [re.search(r"\b(w1|...|wn)\b", s)]: the engine tries every start
    position and, at each, every alternative. *)
Definition re_search (ws : list string) (s : string) : bool :=
  existsb (fun i => existsb (match_at s i) ws) (seq 0 (S (String.length s))).

(** [w] occurs in [s] as a whole word. *)
Definition whole_word (w s : string) : bool :=
  existsb (fun i => match_at s i w) (seq 0 (S (String.length s))).

Definition analyze_words : list string :=
  ["analy"; "analysis"; "analyze"; "regress"; "correlat"; "drivers"; "model"; "predict"].
Definition summarize_words : list string :=
  ["summary"; "summarize"; "summarise"; "describe"; "overview"; "insight"].
Definition sql_words : list string :=
  ["count"; "how many"; "top"; "sum"; "avg"; "group by"; "order by"; "select"; "min"; "max"].

(** The dict returned by [detect_intent]. *)
Record route := {
  intent : string;
  confidence : Q;
  agents : list string;
  hints : list (string * pyval)
}.

(** The ordered pattern checks on the lowercased prompt. *)
Definition classify (text : string) : route :=
  if re_search analyze_words text then
    {| intent := "analyze"; confidence := 92 # 100;
       agents := ["Planner"; "SQLGenerator"; "Validator"; "SQLRunner"; "AnalysisAgent"; "Summarizer"];
       hints := [("sample_only", PBool true)] |}
  else if re_search summarize_words text then
    {| intent := "summarize"; confidence := 93 # 100;
       agents := ["Planner"; "Summarizer"];
       hints := [("use_existing_df", PBool true)] |}
  else if re_search sql_words text then
    {| intent := "sql"; confidence := 9 # 10;
       agents := ["Planner"; "SQLGenerator"; "Validator"; "SQLRunner"; "Summarizer"];
       hints := [("sample_only", PBool true)] |}
  else
    {| intent := "unknown"; confidence := 5 # 10; agents := []; hints := [] |}.

(** [detect_intent(prompt, user_mode)]; [None] is Python's [None]. *)
Definition detect_intent (prompt : option string) (user_mode : option string) : route :=
  let text := lower (match prompt with Some p => p | None => "" end) in
  match user_mode with
  | Some m =>
      if negb (String.eqb m "")
      then {| intent := m; confidence := 95 # 100; agents := []; hints := [] |}
      else classify text
  | None => classify text
  end.

End Router.

(** ** Python helpers shared by the modules below *)

(** [str(i)] for a non-negative integer. *)
Definition nat_str (n : nat) : string := NilEmpty.string_of_uint (Nat.to_uint n).

Definition hashable (v : pyval) : bool :=
  match v with PList _ | PDict _ => false | _ => true end.

(** [==] on hashable values ([True == 1], [False == 0]); an opaque object
    is equal only to itself (same tag). *)
Definition py_key_eqb (a b : pyval) : bool :=
  match a, b with
  | PNone, PNone => true
  | PBool x, PBool y => Bool.eqb x y
  | PBool x, PInt z | PInt z, PBool x => Z.eqb z (if x then 1 else 0)%Z
  | PInt x, PInt y => Z.eqb x y
  | PStr x, PStr y => String.eqb x y
  | PObj x, PObj y => String.eqb x y
  | _, _ => false
  end.

(** A dict with arbitrary hashable keys: lookup and assignment
    ([d[k] = v] keeps the position of an existing key). *)
Fixpoint assoc_get {A} (kvs : list (pyval * A)) (k : pyval) : option A :=
  match kvs with
  | [] => None
  | (k', v) :: rest => if py_key_eqb k' k then Some v else assoc_get rest k
  end.

Fixpoint assoc_set {A} (kvs : list (pyval * A)) (k : pyval) (v : A) : list (pyval * A) :=
  match kvs with
  | [] => [(k, v)]
  | (k', v') :: rest => if py_key_eqb k' k then (k', v) :: rest else (k', v') :: assoc_set rest k v
  end.

Definition TypeError : string := "TypeError".
Definition AttributeError : string := "AttributeError".

Fixpoint chars (s : string) : list pyval :=
  match s with EmptyString => [] | String c r => PStr (String c EmptyString) :: chars r end.

(** [list(x)] / iterating [x]: a list, the characters of a string, the
    keys of a dict; other values are not iterable. *)
Definition py_iter (v : pyval) : res (list pyval) :=
  match v with
  | PList l => Ok l
  | PStr s => Ok (chars s)
  | PDict kvs => Ok (map fst kvs)
  | _ => Err TypeError
  end.

(** [x.get(k)] on a value that must be a dict. *)
Definition py_get (v : pyval) (k : string) : res (option pyval) :=
  match v with PDict kvs => Ok (dget kvs k) | _ => Err AttributeError end.

Definition py_get_or (v : pyval) (k : string) (dflt : pyval) : res pyval :=
  o <- py_get v k ;; Ok (match o with Some x => x | None => dflt end).

Definition opt_none (o : option pyval) : pyval := match o with Some x => x | None => PNone end.

Fixpoint mapM {A B} (f : A -> res B) (l : list A) : res (list B) :=
  match l with
  | [] => Ok []
  | x :: r => y <- f x ;; ys <- mapM f r ;; Ok (y :: ys)
  end.

(** ** Run payload: [build_run_payload] (langgraph_mapping.py) *)

Module Mapping.

Record item := {
  i_id : pyval;
  i_name : pyval;
  i_params : pyval;
  i_outputs : list pyval;
  i_depends_on : list pyval;
  i_inputs : list pyval
}.

Definition item_py (it : item) : pyval :=
  PDict [(PStr "id", i_id it); (PStr "name", i_name it); (PStr "params", i_params it);
         (PStr "outputs", PList (i_outputs it)); (PStr "depends_on", PList (i_depends_on it));
         (PStr "inputs", PList (i_inputs it))].

(** [a.get("outputs") or a.get("provides") or ["result"]], a string
    wrapped in a list, then [list(outputs)]. *)
Definition declared_outputs (a : pyval) : res (list pyval) :=
  o1 <- py_get a "outputs" ;;
  o2 <- py_get a "provides" ;;
  let outputs :=
    if truthy (opt_none o1) then opt_none o1
    else if truthy (opt_none o2) then opt_none o2
    else PList [PStr "result"] in
  let outputs := match outputs with PStr _ => PList [outputs] | _ => outputs end in
  py_iter outputs.

(** [a.get("id") or f"node_{idx}"] *)
Definition step_id (idx : nat) (a : pyval) : res pyval :=
  o <- py_get a "id" ;;
  Ok (if truthy (opt_none o) then opt_none o else PStr ("node_" ++ nat_str idx)).

(** One iteration of the first loop: the id, the outputs recorded in
    [id_to_outputs] and the appended item. *)
Definition mk_item (idx : nat) (a : pyval) : res (pyval * list pyval * item) :=
  aid <- step_id idx a ;;
  outs <- declared_outputs a ;;
  _ <- (if hashable aid then Ok tt else Err TypeError) ;;
  name <- py_get_or a "name" (PStr ("agent_" ++ nat_str idx)) ;;
  params <- py_get_or a "params" (PDict []) ;;
  outs2 <- declared_outputs a ;;
  dop <- py_get a "depends_on" ;;
  deps <- (match dop with
           | None | Some PNone => Ok []
           | Some d => py_iter d
           end) ;;
  Ok (aid, outs, {| i_id := aid; i_name := name; i_params := params; i_outputs := outs2;
                    i_depends_on := deps; i_inputs := [] |}).

(** The first loop: items and [id_to_outputs]. *)
Fixpoint collect (idx : nat) (agents : list pyval) (tbl : list (pyval * list pyval))
  : res (list item * list (pyval * list pyval)) :=
  match agents with
  | [] => Ok ([], tbl)
  | a :: rest =>
      r <- mk_item idx a ;;
      let '(aid, outs, it) := r in
      r' <- collect (S idx) rest (assoc_set tbl aid outs) ;;
      let '(its, tbl') := r' in
      Ok (it :: its, tbl')
  end.

Definition with_deps (it : item) (deps : list pyval) : item :=
  {| i_id := i_id it; i_name := i_name it; i_params := i_params it;
     i_outputs := i_outputs it; i_depends_on := deps; i_inputs := i_inputs it |}.

Definition with_inputs (it : item) (ins : list pyval) : item :=
  {| i_id := i_id it; i_name := i_name it; i_params := i_params it;
     i_outputs := i_outputs it; i_depends_on := i_depends_on it; i_inputs := ins |}.

(** [items[i]["depends_on"] = [items[i - 1]["id"]]] for [i >= 1]. *)
Fixpoint chain_from (prev : pyval) (its : list item) : list item :=
  match its with
  | [] => []
  | it :: rest => with_deps it [prev] :: chain_from (i_id it) rest
  end.

Definition chain (its : list item) : list item :=
  match its with [] => [] | it :: rest => it :: chain_from (i_id it) rest end.

(** [{"from": dep, "output": id_to_outputs.get(dep, ["result"])[0]}] *)
Definition input_ref (tbl : list (pyval * list pyval)) (dep : pyval) : res pyval :=
  _ <- (if hashable dep then Ok tt else Err TypeError) ;;
  let ups := match assoc_get tbl dep with Some o => o | None => [PStr "result"] end in
  match ups with
  | o :: _ => Ok (PDict [(PStr "from", dep); (PStr "output", o)])
  | [] => Err "IndexError"
  end.

Definition fill_inputs (tbl : list (pyval * list pyval)) (it : item) : res item :=
  ins <- mapM (input_ref tbl) (i_depends_on it) ;; Ok (with_inputs it ins).

Definition build_run_payload (decision : pyval) : res pyval :=
  ag <- py_get_or decision "agents" (PList []) ;;
  let ag := if truthy ag then ag else PList [] in
  agents <- py_iter ag ;;
  r <- collect 0 agents [] ;;
  let '(its, tbl) := r in
  let its := if existsb (fun it => truthy (PList (i_depends_on it))) its then its else chain its in
  its' <- mapM (fill_inputs tbl) its ;;
  Ok (PDict [(PStr "name", PStr "duckagent_decision"); (PStr "items", PList (map item_py its'))]).

End Mapping.

(** ** Planner: [_default_plan], [_validate_decision], [plan_for_intent] (planner.py) *)

Module Planner.

Definition DEFAULT_AGENT_NAMES : list string :=
  ["Planner"; "SQLGenerator"; "Validator"; "SQLRunner"; "AnalysisAgent"; "Summarizer"].

Definition step (name : string) (params : list (pyval * pyval)) : pyval :=
  PDict [(PStr "name", PStr name); (PStr "params", PDict params)].

(** [len(v)]; the length of an opaque object is up to its class. *)
Definition py_len (obj_len : string -> res Z) (v : pyval) : res Z :=
  match v with
  | PList l => Ok (Z.of_nat (length l))
  | PStr s => Ok (Z.of_nat (String.length s))
  | PDict kvs => Ok (Z.of_nat (length kvs))
  | PObj t => obj_len t
  | _ => Err TypeError
  end.

(** [full_df is not None or (rows_preview and len(rows_preview) > 0)] *)
Definition has_data (obj_len : string -> res Z) (context : list (pyval * pyval)) : res bool :=
  let full_df := opt_none (dget context "full_df") in
  let rows_preview := opt_none (dget context "rows_preview") in
  match full_df with
  | PNone =>
      if truthy rows_preview then
        n <- py_len obj_len rows_preview ;; Ok (Z.gtb n 0)
      else Ok false
  | _ => Ok true
  end.

Definition _default_plan (obj_len : string -> res Z) (intent : string)
    (context : list (pyval * pyval)) : res pyval :=
  hd <- has_data obj_len context ;;
  if hd then
    Ok (PDict [(PStr "intent", PStr intent);
               (PStr "agents", PList [step "Summarizer" []]);
               (PStr "hints", PDict [(PStr "use_existing_df", PBool true)]);
               (PStr "reason", PStr "context contains data; prefer summarizer");
               (PStr "cost_estimate", PDict [(PStr "llm_tokens", PInt 20); (PStr "scan_bytes_est", PInt 0)])])
  else
    let '(agents, hints) :=
      if String.eqb intent "analyze" then
        ([step "Planner" []; step "SQLGenerator" [(PStr "sample_only", PBool true)];
          step "Validator" [(PStr "sample_mode", PBool true)];
          step "SQLRunner" [(PStr "max_rows", PInt 1000)];
          step "AnalysisAgent" [(PStr "analysis_mode", PStr "regression")];
          step "Summarizer" [(PStr "model", PStr "default")]],
         [(PStr "confirm_full_run", PBool true)])
      else if String.eqb intent "sql" then
        ([step "Planner" []; step "SQLGenerator" [(PStr "sample_only", PBool true)];
          step "Validator" []; step "SQLRunner" [(PStr "max_rows", PInt 500)];
          step "Summarizer" []], [])
      else if String.eqb intent "summarize" then
        ([step "Planner" []; step "Summarizer" []], [])
      else
        ([step "Planner" []; step "Summarizer" []], []) in
    Ok (PDict [(PStr "intent", PStr intent); (PStr "agents", PList agents);
               (PStr "hints", PDict hints); (PStr "reason", PStr "planner default mapping");
               (PStr "cost_estimate", PDict [(PStr "llm_tokens", PInt 100); (PStr "scan_bytes_est", PInt 0)])]).

(** [isinstance(v, (str, int, float, bool, type(None), list, dict))]:
    every value but an opaque object. *)
Definition simple_json (v : pyval) : bool :=
  match v with PObj _ => false | _ => true end.

Definition ValueError : string := "ValueError".

Definition allowed_name (name : pyval) : bool :=
  match name with
  | PStr s => existsb (String.eqb s) DEFAULT_AGENT_NAMES
  | _ => false
  end.

Definition validate_agent (a : pyval) : res pyval :=
  match a with
  | PDict kvs =>
      let name := opt_none (dget kvs "name") in
      if negb (allowed_name name) then Err ValueError else
      let params := dget_or kvs "params" (PDict []) in
      let params := if truthy params then params else PDict [] in
      match params with
      | PDict ps =>
          Ok (PDict [(PStr "name", name);
                     (PStr "params", PDict (filter (fun kv => simple_json (snd kv)) ps))])
      | _ => Err ValueError
      end
  | _ => Err ValueError
  end.

Definition _validate_decision (obj : pyval) : res pyval :=
  match obj with
  | PDict kvs =>
      match dget kvs "agents" with
      | Some (PList agents) =>
          normalized <- mapM validate_agent agents ;;
          Ok (PDict [(PStr "intent", opt_none (dget kvs "intent"));
                     (PStr "agents", PList normalized);
                     (PStr "hints", dget_or kvs "hints" (PDict []))])
      | _ => Err ValueError
      end
  | _ => Err ValueError
  end.

Definition nl : string := String (ascii_of_nat 10) EmptyString.

Definition prompt_template (prompt : string) : string :=
  "You are a planner that returns a JSON object describing an execution plan. "
  ++ "Respond ONLY with valid JSON. The JSON must contain an 'intent' string and an 'agents' list. "
  ++ "Each agent in 'agents' must be an object with 'name' (one of: "
  ++ String.concat ", " DEFAULT_AGENT_NAMES
  ++ ") and optional 'params' (a simple JSON object)." ++ nl
  ++ "User prompt: " ++ prompt ++ nl
  ++ "Produce the JSON decision now.".

(** [str.isspace] on code points 0..255. *)
Definition is_space (c : ascii) : bool :=
  let n := code c in
  in_range 9 13 n || in_range 28 32 n || Nat.eqb n 133 || Nat.eqb n 160.

Fixpoint lstrip (s : string) : string :=
  match s with
  | EmptyString => EmptyString
  | String c r => if is_space c then lstrip r else s
  end.

Definition rev_str (s : string) : string :=
  string_of_list_ascii (rev (list_ascii_of_string s)).

(** [s.strip()] *)
Definition strip (s : string) : string := rev_str (lstrip (rev_str (lstrip s))).

Definition endswith (suf s : string) : bool := prefix (rev_str suf) (rev_str s).

(** [s.split("\n")] *)
Fixpoint split_nl (s : string) : list string :=
  match s with
  | EmptyString => [EmptyString]
  | String c r =>
      let parts := split_nl r in
      if Nat.eqb (code c) 10 then EmptyString :: parts
      else match parts with
           | p :: ps => String c p :: ps
           | [] => [String c EmptyString]
           end
  end.

(** [s.find(c)] *)
Fixpoint find_char (c : ascii) (s : string) : option nat :=
  match s with
  | EmptyString => None
  | String c' r => if Ascii.eqb c c' then Some 0 else option_map S (find_char c r)
  end.

Definition fence : string := "```".

(** The text handed to [json.loads]: stripped, the fence lines removed
    when the text starts and ends with three backticks, and cut at the
    first ['{'] when there is one. *)
Definition extract_json (raw : string) : string :=
  let text := strip raw in
  let text := if prefix fence text && endswith fence text
              then String.concat nl (removelast (tl (split_nl text))) else text in
  match find_char "{"%char text with
  | Some start => drop start text
  | None => text
  end.

Section Plan.

(** [json.loads]; an error for a string that is not a JSON document. *)
Variable json_loads : string -> res pyval.
Variable obj_len : string -> res Z.

(** The [try] block of [plan_for_intent], given [self.llm.generate]. *)
Definition llm_attempt (generate : string -> res pyval) (intent prompt : string) : res pyval :=
  raw <- generate (prompt_template prompt) ;;
  text <- (match raw with PStr s => Ok (extract_json s) | _ => Err AttributeError end) ;;
  obj <- json_loads text ;;
  validated <- _validate_decision obj ;;
  match validated with
  | PDict ((k, i) :: rest) => Ok (PDict ((k, if truthy i then i else PStr intent) :: rest))
  | _ => Ok validated
  end.

(** [llm] is [None] or an adapter (a truthy object) with [generate]. *)
Definition plan_for_intent (llm : option (string -> res pyval)) (intent prompt : string)
    (context : list (pyval * pyval)) : res pyval :=
  hd <- has_data obj_len context ;;
  if hd then _default_plan obj_len intent context else
  match llm with
  | None => _default_plan obj_len intent context
  | Some generate =>
      match llm_attempt generate intent prompt with
      | Ok v => Ok v
      | Err _ => _default_plan obj_len intent context
      end
  end.

End Plan.

End Planner.

(** ** Local orchestrator: the agent implementations and [execute] (orchestrator.py) *)

Module Orchestrator.

(** What the orchestrator calls outside Python itself: the LLM adapter, the
    DuckDB connection and cursor, pandas, [str()] of a non-string value, and
    the optional LangGraph runtime ([None] when it is not installed; a run
    that fails gives [None] too, as the code falls back to the local loop). *)
Record world := {
  w_generate : pyval -> string -> Z -> res pyval;   (* llm.generate(prompt, max_tokens=...) *)
  w_execute : pyval -> pyval -> res pyval;          (* conn.execute(sql) *)
  w_fetchdf : pyval -> res pyval;                   (* cur.fetchdf() *)
  w_fetchall : pyval -> res pyval;                  (* cur.fetchall() *)
  w_is_dataframe : pyval -> bool;                   (* isinstance(x, pd.DataFrame) *)
  w_df_empty : pyval -> res bool;                   (* df.empty *)
  w_df_first_cell : pyval -> res pyval;             (* df.iloc[0][df.columns[0]] *)
  w_head_records : pyval -> Z -> res pyval;         (* df.head(n).to_dict(orient="records") *)
  w_describe : pyval -> res pyval;                  (* df.describe().to_dict() *)
  w_shape : pyval -> res (pyval * pyval);           (* df.shape *)
  w_columns : pyval -> res pyval;                   (* list(df.columns) *)
  w_obj_len : pyval -> res Z;                       (* len(obj) *)
  w_obj_slice : pyval -> Z -> res pyval;            (* obj[:n] *)
  w_obj_index : pyval -> Z -> res pyval;            (* obj[i] *)
  w_str : pyval -> string;                          (* str(v), v not a string *)
  w_langgraph : option (pyval -> list (pyval * pyval) -> option pyval)
}.

Section Impl.

Variable w : world.

(** [f"{v}"] *)
Definition fmt (v : pyval) : string := match v with PStr s => s | _ => w_str w v end.

Definition is_none (v : pyval) : bool := match v with PNone => true | _ => false end.

Definition st_get (st : list (pyval * pyval)) (k : string) : pyval := opt_none (dget st k).

Definition st_set (st : list (pyval * pyval)) (k : string) (v : pyval) : list (pyval * pyval) :=
  assoc_set st (PStr k) v.

Definition len_of (v : pyval) : res Z :=
  match v with
  | PList l => Ok (Z.of_nat (length l))
  | PStr s => Ok (Z.of_nat (String.length s))
  | PDict kvs => Ok (Z.of_nat (length kvs))
  | PObj _ => w_obj_len w v
  | _ => Err TypeError
  end.

(** [v[:n]] *)
Definition slice_to (v : pyval) (n : nat) : res pyval :=
  match v with
  | PList l => Ok (PList (firstn n l))
  | PStr s => Ok (PStr (substring 0 n s))
  | PObj _ => w_obj_slice w v (Z.of_nat n)
  | _ => Err TypeError
  end.

(** [v[0]] *)
Definition index0 (v : pyval) : res pyval :=
  match v with
  | PList (x :: _) => Ok x
  | PList [] => Err "IndexError"
  | PStr (String c _) => Ok (PStr (String c EmptyString))
  | PStr EmptyString => Err "IndexError"
  | PDict kvs => match assoc_get kvs (PInt 0) with Some x => Ok x | None => Err "KeyError" end
  | PObj _ => w_obj_index w v 0
  | _ => Err TypeError
  end.

Definition rstrip_semi (s : string) : string :=
  let fix go (l : list ascii) : list ascii :=
    match l with c :: r => if Nat.eqb (code c) 59 then go r else l | [] => [] end in
  string_of_list_ascii (rev (go (rev (list_ascii_of_string s)))).

Definition _run_planner (node : pyval) (state : list (pyval * pyval)) : res pyval :=
  Ok (PDict [(PStr "plan", PStr "planner-produced-plan")]).

Definition _run_sqlgenerator (node : pyval) (state : list (pyval * pyval)) : res pyval :=
  let prompt := dget_or state "prompt" (PStr "") in
  params <- py_get_or node "params" (PDict []) ;;
  limit <- py_get_or params "max_rows" (PInt 10) ;;
  let llm := st_get state "llm" in
  let from_llm :=
    if truthy llm then
      let p := "You are an assistant that generates safe SQL for DuckDB." ++ Planner.nl
               ++ "User request: " ++ fmt prompt ++ Planner.nl
               ++ "Produce a single SQL query that answers the request. Limit rows to "
               ++ fmt limit ++ "." ++ Planner.nl in
      match (sql_text <- w_generate w llm p 512 ;;
             match sql_text with
             | PStr s => Ok (if contains "limit" (lower s) then s
                             else rstrip_semi (Planner.strip s) ++ " LIMIT " ++ fmt limit)
             | _ => Err AttributeError
             end) with
      | Ok s => Some s
      | Err _ => None
      end
    else None in
  match from_llm with
  | Some s => Ok (PDict [(PStr "sql", PStr s)])
  | None =>
      let table_name := st_get state "full_df_table_name" in
      let table_name :=
        if truthy table_name then table_name else
        let conn := st_get state "conn" in
        if is_none conn then table_name else
        match w_execute w conn (PStr "SHOW TABLES") with
        | Err _ => PNone
        | Ok cur =>
            match (df_tables <- w_fetchdf w cur ;;
                   empty <- w_df_empty w df_tables ;;
                   if empty then Ok table_name
                   else (cell <- w_df_first_cell w df_tables ;; Ok (PStr (fmt cell)))) with
            | Ok tn => tn
            | Err _ =>
                match (rows <- w_fetchall w cur ;;
                       if truthy rows
                       then (r0 <- index0 rows ;; c <- index0 r0 ;; Ok (PStr (fmt c)))
                       else Ok table_name) with
                | Ok tn => tn
                | Err _ => PNone
                end
            end
        end in
      let table_name := if truthy table_name then table_name else PStr "sample_table" in
      Ok (PDict [(PStr "sql", PStr ("SELECT * FROM " ++ fmt table_name ++ " LIMIT " ++ fmt limit))])
  end.

Definition _run_validator (node : pyval) (state : list (pyval * pyval)) : res pyval :=
  Ok (PDict [(PStr "valid", PBool true); (PStr "issues", PList [])]).

Definition _run_sqlrunner (node : pyval) (state : list (pyval * pyval)) : res pyval :=
  let conn := st_get state "conn" in
  let sql := st_get state "last_sql" in
  if negb (is_none conn) && truthy sql then
    match w_execute w conn sql with
    | Err e => Ok (PDict [(PStr "error", PStr e)])
    | Ok cur =>
        let fetched :=
          match w_fetchdf w cur with
          | Ok df =>
              match w_head_records w df 20 with
              | Ok rows => Ok (rows, df)
              | Err _ => rows <- w_fetchall w cur ;; Ok (rows, df)
              end
          | Err _ => rows <- w_fetchall w cur ;; Ok (rows, PNone)
          end in
        match fetched with
        | Ok (rows, df) => Ok (PDict [(PStr "rows_preview", rows); (PStr "full_df", df)])
        | Err e => Ok (PDict [(PStr "error", PStr e)])
        end
    end
  else
    Ok (PDict [(PStr "rows_preview", PList [PDict [(PStr "col1", PInt 1); (PStr "col2", PStr "example")]]);
               (PStr "full_df", PNone)]).

Definition _run_analysisagent (node : pyval) (state : list (pyval * pyval)) : res pyval :=
  let df := st_get state "full_df" in
  if w_is_dataframe w df then
    desc <- w_describe w df ;;
    n <- w_obj_len w df ;;
    Ok (PDict [(PStr "analysis_code", PNone); (PStr "artifacts", PDict [(PStr "describe", desc)]);
               (PStr "metrics", PDict [(PStr "n_rows", PInt n)])])
  else
    Ok (PDict [(PStr "analysis_code", PNone);
               (PStr "artifacts", PDict [(PStr "note", PStr "no dataframe provided to AnalysisAgent")]);
               (PStr "metrics", PDict [])]).

Definition no_data_message : string :=
  "No data available to summarize. Provide a DataFrame via ``Agent.run(..., "
  ++ "data=...)`` or run a SQL-producing plan so results can be summarized.".

Definition _run_summarizer (node : pyval) (state : list (pyval * pyval)) : res pyval :=
  let plan := dget_or state "plan_text" (PStr "(no plan)") in
  let last_sql := dget_or state "last_sql" (PStr "(no sql)") in
  let rows := dget_or state "rows_preview" (PList []) in
  let full_df := st_get state "full_df" in
  let llm := st_get state "llm" in
  let from_df :=
    if is_none full_df then None else
    if negb (w_is_dataframe w full_df) then None else
    match (sh <- w_shape w full_df ;; cols <- w_columns w full_df ;;
           sample <- w_head_records w full_df 5 ;; Ok (sh, cols, sample)) with
    | Err _ => None
    | Ok ((n_rows, n_cols), cols, sample_rows) =>
        let from_llm :=
          if truthy llm then
            let prompt := "You are an assistant that summarizes a pandas DataFrame." ++ Planner.nl
                          ++ "Plan: " ++ fmt plan ++ Planner.nl
                          ++ "DataFrame shape: " ++ fmt n_rows ++ " rows x " ++ fmt n_cols ++ " cols" ++ Planner.nl
                          ++ "Columns: " ++ fmt cols ++ Planner.nl
                          ++ "Sample rows: " ++ fmt sample_rows ++ Planner.nl
                          ++ "Produce a concise human-readable summary (3-5 sentences)." in
            match w_generate w llm prompt 300 with
            | Ok text => Some (PDict [(PStr "summary", text); (PStr "llm_used", PBool true)])
            | Err _ => None
            end
          else None in
        match from_llm with
        | Some o => Some o
        | None => Some (PDict [(PStr "summary", PStr ("DataFrame with " ++ fmt n_rows ++ " rows and "
                                 ++ fmt n_cols ++ " columns. Columns: " ++ fmt cols ++ ". "
                                 ++ "Sample rows: " ++ fmt sample_rows))])
        end
    end in
  match from_df with
  | Some o => Ok o
  | None =>
      r <- (if truthy llm then
              sample <- slice_to rows 5 ;;
              let prompt := "You are an assistant that summarizes analysis findings." ++ Planner.nl
                            ++ "Plan: " ++ fmt plan ++ Planner.nl
                            ++ "SQL: " ++ fmt last_sql ++ Planner.nl
                            ++ "Sample rows: " ++ fmt sample ++ Planner.nl
                            ++ "Produce a concise human-readable summary (3-5 sentences)." in
              match w_generate w llm prompt 300 with
              | Ok text => Ok (Some (PDict [(PStr "summary", text); (PStr "llm_used", PBool true)]))
              | Err _ => Ok None
              end
            else Ok None) ;;
      match r with
      | Some o => Ok o
      | None =>
          if negb (truthy rows) then
            Ok (PDict [(PStr "summary", PStr no_data_message); (PStr "llm_used", PBool false)])
          else
            n <- len_of rows ;;
            Ok (PDict [(PStr "summary", PStr ("Plan: " ++ fmt plan ++ Planner.nl ++ "SQL: " ++ fmt last_sql
                                             ++ Planner.nl ++ "Rows preview count: " ++ fmt (PInt n)));
                       (PStr "llm_used", PBool false)])
      end
  end.

End Impl.

(** [AGENT_IMPL.get(name)] for a hashable [name]. *)
Definition AGENT_IMPL (name : pyval)
  : option (world -> pyval -> list (pyval * pyval) -> res pyval) :=
  match name with
  | PStr s =>
      if String.eqb s "Planner" then Some (fun _ => _run_planner)
      else if String.eqb s "SQLGenerator" then Some _run_sqlgenerator
      else if String.eqb s "Validator" then Some (fun _ => _run_validator)
      else if String.eqb s "SQLRunner" then Some _run_sqlrunner
      else if String.eqb s "AnalysisAgent" then Some _run_analysisagent
      else if String.eqb s "Summarizer" then Some _run_summarizer
      else None
  | _ => None
  end.

Definition unknown_agent : pyval := PDict [(PStr "error", PStr "unknown agent")].

(** A string step becomes [{"name": s, "params": {}}]; a falsy one
    [{"name": "", "params": {}}]. *)
Definition normalize_node (raw : pyval) : pyval :=
  match raw with
  | PStr _ => PDict [(PStr "name", raw); (PStr "params", PDict [])]
  | _ => if truthy raw then raw else PDict [(PStr "name", PStr ""); (PStr "params", PDict [])]
  end.

(** The side-effectful state updates after a registered step. *)
Definition update_state (state : list (pyval * pyval)) (out : pyval) : list (pyval * pyval) :=
  match out with
  | PDict kvs =>
      let state := match dget kvs "sql" with Some v => st_set state "last_sql" v | None => state end in
      let state := match dget kvs "rows_preview" with Some v => st_set state "rows_preview" v | None => state end in
      let state := match dget kvs "full_df" with Some v => st_set state "full_df" v | None => state end in
      match dget kvs "plan" with Some v => st_set state "plan_text" v | None => state end
  | _ => state
  end.

(** One iteration of the loop of [execute]. *)
Definition run_node (w : world) (state results : list (pyval * pyval)) (raw_node : pyval)
  : res (list (pyval * pyval) * list (pyval * pyval)) :=
  let node := normalize_node raw_node in
  name <- py_get_or node "name" PNone ;;
  params <- py_get_or node "params" (PDict []) ;;
  _ <- (if hashable name then Ok tt else Err TypeError) ;;
  match AGENT_IMPL name with
  | None => Ok (state, assoc_set results name unknown_agent)
  | Some impl =>
      out <- impl w (PDict [(PStr "params", params)]) state ;;
      Ok (update_state state out, assoc_set results name out)
  end.

Fixpoint run_nodes (w : world) (state results : list (pyval * pyval)) (nodes : list pyval)
  : res (list (pyval * pyval) * list (pyval * pyval)) :=
  match nodes with
  | [] => Ok (state, results)
  | n :: rest =>
      r <- run_node w state results n ;;
      let '(state', results') := r in
      run_nodes w state' results' rest
  end.

Definition seed_state (context : list (pyval * pyval)) : list (pyval * pyval) :=
  [(PStr "conn", st_get context "conn"); (PStr "prompt", st_get context "prompt");
   (PStr "llm", st_get context "llm"); (PStr "full_df", st_get context "full_df")].

(** The LangGraph attempt: its result, or [None] when the local loop runs. *)
Definition langgraph_attempt (w : world) (decision : pyval) (context : list (pyval * pyval)) : option pyval :=
  if truthy (dget_or context "prefer_langgraph" (PBool false)) then
    match w_langgraph w with
    | Some run => run decision (seed_state context)
    | None => None
    end
  else None.

(** The top-level result. *)
Definition finish (w : world) (decision : pyval)
    (r : list (pyval * pyval) * list (pyval * pyval)) : res pyval :=
  let '(state, results) := r in
  summary <- slice_to w (dget_or state "rows_preview" (PList [])) 5 ;;
  let top := [(PStr "decision", decision); (PStr "results", PDict results); (PStr "summary", summary)] in
  match assoc_get results (PStr "Summarizer") with
  | Some (PDict ((_ :: _) as skvs)) =>
      match dget skvs "summary" with
      | Some s => Ok (PDict (top ++ [(PStr "summary_text", s)])%list)
      | None => Ok (PDict top)
      end
  | _ => Ok (PDict top)
  end.

Definition execute (w : world) (decision : pyval) (context : list (pyval * pyval)) : res pyval :=
  match langgraph_attempt w decision context with
  | Some run_result => Ok (PDict [(PStr "langgraph_result", run_result)])
  | None =>
      agents <- py_get_or decision "agents" (PList []) ;;
      nodes <- py_iter agents ;;
      r <- run_nodes w (seed_state context) [] nodes ;;
      finish w decision r
  end.

End Orchestrator.

(** ** Graph adapter: [build_runtime_graph] and [run_decision_graph] (langgraph_adapter.py) *)

Module Adapter.
Import Orchestrator.

(** A runtime node; its [fn] is the local wrapper of [agent]. *)
Record runtime_node := {
  rn_id : string;
  rn_name : pyval;
  rn_meta : pyval;
  rn_agent : pyval
}.

(** [make_local_fn(n)]: [local_execute({"agents": [n]}, state)]. *)
Definition local_fn (w : world) (n : pyval) (state : list (pyval * pyval)) : res pyval :=
  execute w (PDict [(PStr "agents", PList [n])]) state.

Fixpoint materialize (w : world) (i : nat) (agents : list pyval) : res (list runtime_node) :=
  match agents with
  | [] => Ok []
  | a :: rest =>
      name <- py_get_or a "name" PNone ;;
      params <- py_get_or a "params" (PDict []) ;;
      let params := if truthy params then params else PDict [] in
      let node_id := "node_" ++ nat_str i ++ "_" ++ fmt w name in
      rest' <- materialize w (S i) rest ;;
      Ok ({| rn_id := node_id; rn_name := name; rn_meta := params; rn_agent := a |} :: rest')
  end.

Fixpoint edges_of (ids : list string) : list pyval :=
  match ids with
  | a :: ((b :: _) as rest) => PDict [(PStr "from", PStr a); (PStr "to", PStr b)] :: edges_of rest
  | _ => []
  end.

Definition build_runtime_graph (w : world) (decision : pyval) : res (pyval * list runtime_node) :=
  agents <- py_get_or decision "agents" (PList []) ;;
  let agents := if truthy agents then agents else PList [] in
  items <- py_iter agents ;;
  rns <- materialize w 0 items ;;
  intent <- py_get_or decision "intent" PNone ;;
  let nodes := map (fun n => PDict [(PStr "id", PStr (rn_id n)); (PStr "name", rn_name n);
                                    (PStr "meta", rn_meta n)]) rns in
  Ok (PDict [(PStr "nodes", PList nodes); (PStr "edges", PList (edges_of (map rn_id rns)));
             (PStr "metadata", PDict [(PStr "decision", PDict [(PStr "intent", intent)])])], rns).

(** The remote paths. [rt_sdk]: [None] when [langgraph_sdk] is not
    installed, else what creating a run from the payload gives ([None] when
    there is no client or the call raises). [rt_shim]: [None] when the
    [langgraph] runtime is not installed, else the traces its wrapped nodes
    appended to the shared [traces] list and the run result ([None] when
    the run raised). *)
Record runtime := {
  rt_sdk : option (pyval -> option pyval);
  rt_shim : option (list string -> list (pyval * pyval) -> list pyval * option pyval)
}.

(** The local loop, from the traces already in [traces]; the trace
    timestamps are left out. *)
Fixpoint run_local (w : world) (local_state : list (pyval * pyval)) (rns : list runtime_node)
    (traces : list pyval) (results : list (pyval * pyval))
  : res (list pyval * list (pyval * pyval)) :=
  match rns with
  | [] => Ok (traces, results)
  | n :: rest =>
      let in_payload := PDict [(PStr "state", PDict local_state); (PStr "params", rn_meta n)] in
      let '(out, status) :=
        match local_fn w (rn_agent n) local_state with
        | Ok o => (o, "success")
        | Err e => (PDict [(PStr "error", PStr e)], "error")
        end in
      input <- Redaction._redact in_payload ;;
      output <- Redaction._redact out ;;
      let trace := PDict [(PStr "id", PStr (rn_id n)); (PStr "name", rn_name n); (PStr "meta", rn_meta n);
                          (PStr "input", input); (PStr "output", output); (PStr "status", PStr status)] in
      let traces := (traces ++ [trace])%list in
      let results := assoc_set results (PStr (rn_id n))
                       (PDict [(PStr "status", PStr status); (PStr "output", out)]) in
      if String.eqb status "error" then Ok (traces, results)
      else run_local w local_state rest traces results
  end.

Definition run_decision_graph (w : world) (rt : runtime) (decision : pyval)
    (context : list (pyval * pyval)) : res pyval :=
  m <- build_runtime_graph w decision ;;
  let '(graph_dict, rns) := m in
  let sdk_out :=
    match rt_sdk rt with
    | Some create => match Mapping.build_run_payload decision with Ok p => create p | Err _ => None end
    | None => None
    end in
  match sdk_out with
  | Some created => Ok (PDict [(PStr "langgraph_result", created)])
  | None =>
      let '(traces, shim_out) :=
        match rt_shim rt with Some shim => shim (map rn_id rns) context | None => ([], None) end in
      match shim_out with
      | Some run_result => Ok (PDict [(PStr "langgraph_result", run_result); (PStr "node_traces", PList traces)])
      | None =>
          r <- run_local w context rns traces [] ;;
          let '(traces, local_results) := r in
          Ok (PDict [(PStr "execution", PDict [(PStr "status", PStr "completed");
                                               (PStr "results", PDict local_results)]);
                     (PStr "node_traces", PList traces)])
      end
  end.

End Adapter.

(** ** The facade: [Agent.run] (agent.py) *)

Module AgentRun.
Import Orchestrator Adapter.

(** The fields of an [Agent] that [run] reads. *)
Record agent := {
  a_conn : pyval;
  a_llm : pyval;
  a_use_langgraph : pyval;
  a_table_name : string      (* [table_name or "full_df"] *)
}.

Section Run.

Variable w : world.
(** The LangGraph adapter: its runtimes and its [HAS_LANGGRAPH] flag. *)
Variable rt : runtime.
Variable HAS_LANGGRAPH : bool.
(** [conn.register(name, data)] on a connection that has [register]:
    [true] when the call returns, [false] when it raises or [conn] has
    no [register] attribute. *)
Variable register : pyval -> string -> pyval -> bool.
Variable json_loads : string -> res pyval.
(** The Python float of a confidence. *)
Variable pyfloat : Q -> pyval.

(** The router's decision dict. *)
Definition route_py (r : Router.route) : pyval :=
  PDict [(PStr "intent", PStr (Router.intent r)); (PStr "confidence", pyfloat (Router.confidence r));
         (PStr "agents", PList (map PStr (Router.agents r)));
         (PStr "hints", PDict (map (fun kv => (PStr (fst kv), snd kv)) (Router.hints r)))].

(** [ctx] after the updates at the start of [run]. *)
Definition run_context (a : agent) (prompt : string) (context : list (pyval * pyval)) (data : pyval)
  : list (pyval * pyval) :=
  let ctx := assoc_set (assoc_set (assoc_set context (PStr "conn") (a_conn a)) (PStr "prompt") (PStr prompt))
                       (PStr "llm") (a_llm a) in
  if is_none data then ctx else
  let ctx := assoc_set ctx (PStr "full_df") data in
  let conn := st_get ctx "conn" in
  if negb (is_none conn) && register conn (a_table_name a) data
  then assoc_set ctx (PStr "full_df_table_name") (PStr (a_table_name a))
  else ctx.

(** [self.planner.plan_for_intent]: the planner holds the agent's [llm]. *)
Definition agent_plan (a : agent) (intent prompt : string) (ctx : list (pyval * pyval)) : res pyval :=
  Planner.plan_for_intent json_loads (fun t => w_obj_len w (PObj t))
    (if truthy (a_llm a) then Some (fun p => w_generate w (a_llm a) p 512) else None)
    intent prompt ctx.

(** The decision after the router and the planner stages. *)
Definition decide (a : agent) (prompt : string) (mode : option string) (ctx : list (pyval * pyval))
  : res pyval :=
  let r := Router.detect_intent (Some prompt) mode in
  decision <- (if negb (Qle_bool (7 # 10) (Router.confidence r)) || (match Router.agents r with [] => true | _ => false end)
               then agent_plan a (Router.intent r) prompt ctx
               else Ok (route_py r)) ;;
  d <- py_get decision "agents" ;;
  match d with
  | Some _ => Ok decision
  | None =>
      (* not reached: every decision of [plan_for_intent] and of the router
         has an "agents" key *)
      i <- py_get_or decision "intent" (PStr "unknown") ;;
      match i with
      | PStr s => agent_plan a s prompt ctx
      | _ => Err TypeError
      end
  end.

Definition use_lg (a : agent) : bool :=
  match a_use_langgraph a with
  | PBool true => true
  | PStr s => String.eqb s "auto" && HAS_LANGGRAPH
  | _ => false
  end.

Definition run (a : agent) (prompt : string) (mode : option string) (context : list (pyval * pyval))
    (data : pyval) : res pyval :=
  let ctx := run_context a prompt context data in
  decision <- decide a prompt mode ctx ;;
  out <- (if use_lg a then
            match run_decision_graph w rt decision ctx with
            | Ok o => Ok o
            | Err _ => execute w decision ctx
            end
          else execute w decision ctx) ;;
  conf <- py_get_or decision "confidence" PNone ;;
  Ok (PDict [(PStr "decision", decision); (PStr "execution", out);
             (PStr "metadata", PDict [(PStr "router_confidence", conf)])]).

End Run.

End AgentRun.

(** ** Reference readings and sample inputs used by the properties *)

Module RouterSamples.
Import Router.

Definition summarize_route : route :=
  {| intent := "summarize"; confidence := 93 # 100;
     agents := ["Planner"; "Summarizer"];
     hints := [("use_existing_df", PBool true)] |}.

Definition analyze_route : route :=
  {| intent := "analyze"; confidence := 92 # 100;
     agents := ["Planner"; "SQLGenerator"; "Validator"; "SQLRunner"; "AnalysisAgent"; "Summarizer"];
     hints := [("sample_only", PBool true)] |}.

Definition unknown_route : route :=
  {| intent := "unknown"; confidence := 5 # 10; agents := []; hints := [] |}.

End RouterSamples.

Module MappingSpec.
Import Mapping.

(** Python equality on hashable values, through a canonical form. *)
Definition kcanon (v : pyval) : option ((unit + Z) + (string + string)) :=
  match v with
  | PNone => Some (inl (inl tt))
  | PBool b => Some (inl (inr (if b then 1 else 0)%Z))
  | PInt z => Some (inl (inr z))
  | PStr s => Some (inr (inl s))
  | PObj t => Some (inr (inr t))
  | _ => None
  end.

Definition tbl_out (tbl : list (pyval * list pyval)) (dep : pyval) : pyval :=
  match assoc_get tbl dep with Some (o :: _) => o | _ => PStr "result" end.

(** The spec's reading: the first declared output of the last step whose id
    is [dep], "result" when no step has that id. *)
Fixpoint ref_lookup (idx : nat) (agents : list pyval) (dep acc : pyval) : pyval :=
  match agents with
  | [] => acc
  | a :: r =>
      ref_lookup (S idx) r dep
        (match step_id idx a, declared_outputs a with
         | Ok id, Ok (o :: _) => if py_key_eqb id dep then o else acc
         | _, _ => acc
         end)
  end.

Definition ref_output (agents : list pyval) (dep : pyval) : pyval :=
  ref_lookup 0 agents dep (PStr "result").

(** A step that declares a dependency: [a.get("depends_on")] is truthy. *)
Definition declares_deps (a : pyval) : bool :=
  match py_get a "depends_on" with Ok (Some d) => truthy d | _ => false end.

(** Sample decisions. *)
Definition step_A : pyval := PDict [(PStr "name", PStr "A")].
Definition step_B_nodeps : pyval := PDict [(PStr "name", PStr "B"); (PStr "depends_on", PList [])].
Definition decision_empty_deps : pyval := PDict [(PStr "agents", PList [step_A; step_B_nodeps])].

Definition step_sql : pyval :=
  PDict [(PStr "id", PStr "sql"); (PStr "name", PStr "SQLGenerator"); (PStr "outputs", PList [PStr "sql_text"])].
Definition step_run : pyval :=
  PDict [(PStr "id", PStr "run"); (PStr "name", PStr "SQLRunner"); (PStr "depends_on", PList [PStr "sql"])].
Definition step_sum : pyval := PDict [(PStr "name", PStr "Summarizer")].
Definition decision_explicit : pyval := PDict [(PStr "agents", PList [step_sql; step_run; step_sum])].

End MappingSpec.

Module PlannerSamples.
Import Planner.

(** The deterministic chains as the spec lists them. *)
Definition chain_names (intent : string) : list string :=
  if String.eqb intent "analyze" then
    ["Planner"; "SQLGenerator"; "Validator"; "SQLRunner"; "AnalysisAgent"; "Summarizer"]
  else if String.eqb intent "sql" then
    ["Planner"; "SQLGenerator"; "Validator"; "SQLRunner"; "Summarizer"]
  else ["Planner"; "Summarizer"].

Definition step_name (a : pyval) : pyval :=
  match a with PDict kvs => opt_none (dget kvs "name") | _ => PNone end.

Definition summarizer_only (intent : string) : pyval :=
  PDict [(PStr "intent", PStr intent);
         (PStr "agents", PList [PDict [(PStr "name", PStr "Summarizer"); (PStr "params", PDict [])]]);
         (PStr "hints", PDict [(PStr "use_existing_df", PBool true)]);
         (PStr "reason", PStr "context contains data; prefer summarizer");
         (PStr "cost_estimate", PDict [(PStr "llm_tokens", PInt 20); (PStr "scan_bytes_est", PInt 0)])].

(** A completion with commentary before the JSON object, and a [json.loads]
    that agrees with Python's on the strings it is given here. *)
Definition dq : string := String (ascii_of_nat 34) EmptyString.
Definition agents_json : string := "{" ++ dq ++ "agents" ++ dq ++ ": []}".
Definition completion_sample : string := "Plan: " ++ agents_json.
Definition json_loads_sample (s : string) : res pyval :=
  if String.eqb s agents_json then Ok (PDict [(PStr "agents", PList [])]) else Err "JSONDecodeError".
Definition generate_sample (_ : string) : res pyval := Ok (PStr completion_sample).
Definition no_len (_ : string) : res Z := Err TypeError.

End PlannerSamples.

Module OrchestratorSamples.
Import Orchestrator.

(** A world in which every library call raises. *)
Definition world_stub : world := {|
  w_generate := fun _ _ _ => Err "RuntimeError";
  w_execute := fun _ _ => Err "RuntimeError";
  w_fetchdf := fun _ => Err "RuntimeError";
  w_fetchall := fun _ => Err "RuntimeError";
  w_is_dataframe := fun _ => false;
  w_df_empty := fun _ => Err "RuntimeError";
  w_df_first_cell := fun _ => Err "RuntimeError";
  w_head_records := fun _ _ => Err "RuntimeError";
  w_describe := fun _ => Err "RuntimeError";
  w_shape := fun _ => Err "RuntimeError";
  w_columns := fun _ => Err "RuntimeError";
  w_obj_len := fun _ => Err "RuntimeError";
  w_obj_slice := fun _ _ => Err "RuntimeError";
  w_obj_index := fun _ _ => Err "RuntimeError";
  w_str := fun v => match v with PNone => "None" | _ => "<value>" end;
  w_langgraph := None |}.

(** A connection whose queries run but whose results cannot be fetched,
    neither as a dataframe nor as rows. *)
Definition world_fetch_fails : world := {|
  w_generate := fun _ _ _ => Err "RuntimeError";
  w_execute := fun _ _ => Ok (PObj "cursor");
  w_fetchdf := fun _ => Err "fetchdf failed";
  w_fetchall := fun _ => Err "fetchall failed";
  w_is_dataframe := fun v => match v with PObj t => String.eqb t "DataFrame" | _ => false end;
  w_df_empty := fun _ => Err "RuntimeError";
  w_df_first_cell := fun _ => Err "RuntimeError";
  w_head_records := fun _ _ => Err "RuntimeError";
  w_describe := fun _ => Err "RuntimeError";
  w_shape := fun _ => Err "RuntimeError";
  w_columns := fun _ => Err "RuntimeError";
  w_obj_len := fun _ => Err "RuntimeError";
  w_obj_slice := fun _ _ => Err "RuntimeError";
  w_obj_index := fun _ _ => Err "RuntimeError";
  w_str := fun v => match v with PNone => "None" | _ => "<value>" end;
  w_langgraph := None |}.

Definition step_named (s : string) : pyval := PDict [(PStr "name", PStr s)].
Definition decision_AB : pyval := PDict [(PStr "agents", PList [step_named "A"; step_named "B"])].
Definition decision_list_name : pyval :=
  PDict [(PStr "agents", PList [PDict [(PStr "name", PList [PStr "A"])]])].

Definition state_with_df : list (pyval * pyval) :=
  [(PStr "conn", PNone); (PStr "prompt", PNone); (PStr "llm", PNone); (PStr "full_df", PObj "DataFrame")].
Definition state_sql_df : list (pyval * pyval) :=
  [(PStr "conn", PObj "conn"); (PStr "prompt", PNone); (PStr "llm", PNone);
   (PStr "full_df", PObj "DataFrame"); (PStr "last_sql", PStr "SELECT 1")].

End OrchestratorSamples.

Module AdapterSamples.
Import Orchestrator Adapter.

Definition no_runtime : runtime := {| rt_sdk := None; rt_shim := None |}.

Definition analysis_decision : pyval :=
  PDict [(PStr "agents", PList [PDict [(PStr "name", PStr "AnalysisAgent")]])].

(** A dataframe with the integer column label 0, as [pd.DataFrame({0: [1.0, 2.0]})]:
    [describe().to_dict()] is keyed by that label. *)
Definition describe_int_col : pyval :=
  PDict [(PInt 0, PDict [(PStr "count", PInt 2); (PStr "mean", PStr "1.5")])].

Definition world_int_columns : world := {|
  w_generate := fun _ _ _ => Err "RuntimeError";
  w_execute := fun _ _ => Err "RuntimeError";
  w_fetchdf := fun _ => Err "RuntimeError";
  w_fetchall := fun _ => Err "RuntimeError";
  w_is_dataframe := fun v => match v with PObj t => String.eqb t "DataFrame" | _ => false end;
  w_df_empty := fun _ => Ok false;
  w_df_first_cell := fun _ => Err "RuntimeError";
  w_head_records := fun _ _ => Err "RuntimeError";
  w_describe := fun _ => Ok describe_int_col;
  w_shape := fun _ => Ok (PInt 2, PInt 1);
  w_columns := fun _ => Ok (PList [PInt 0]);
  w_obj_len := fun _ => Ok 2%Z;
  w_obj_slice := fun _ _ => Err "RuntimeError";
  w_obj_index := fun _ _ => Err "RuntimeError";
  w_str := fun v => match v with PNone => "None" | _ => "<value>" end;
  w_langgraph := None |}.

End AdapterSamples.

Module ExtraSamples.
Import Router Mapping Planner Orchestrator Adapter AgentRun OrchestratorSamples AdapterSamples.

(** The router's decision for a SQL-like prompt. *)
Definition sql_route : Router.route :=
  {| intent := "sql"; confidence := 9 # 10;
     agents := ["Planner"; "SQLGenerator"; "Validator"; "SQLRunner"; "Summarizer"];
     hints := [("sample_only", PBool true)] |}.

(** The line feed character. *)
Definition nlc : ascii := ascii_of_nat 10.

(** The fields of a run-payload item that [fill_inputs] and [chain] keep. *)
Definition proj (it : item) : pyval * pyval * pyval * list pyval :=
  (i_id it, i_name it, i_params it, i_outputs it).

(** The state keys the loop of [execute] writes. *)
Definition written_keys : list string := ["last_sql"; "rows_preview"; "full_df"; "plan_text"].

(** An output whose first entry is its "summary". *)
Definition summary_first (o : pyval) : Prop :=
  exists s rest, o = PDict ((PStr "summary", s) :: rest).

Definition summarizer_ok (results : list (pyval * pyval)) : Prop :=
  forall o, assoc_get results (PStr "Summarizer") = Some o -> summary_first o.




(** A field of a node trace. *)
Definition trace_field (t : pyval) (k : string) : option pyval :=
  match t with PDict kvs => dget kvs k | _ => None end.

(** The status a node trace records for the call of its function. *)
Definition status_of (r : res pyval) : string :=
  match r with Ok _ => "success" | Err _ => "error" end.

(** [decision.get("confidence", 0) < 0.7 or not decision.get("agents")] on the router's decision. *)
Definition planner_decides (r : Router.route) : bool :=
  negb (Qle_bool (7 # 10) (Router.confidence r)) || (match Router.agents r with [] => true | _ => false end).

(** Sample inputs. *)
Definition ctx_plain : list (pyval * pyval) := [(PStr "prompt", PStr "count rows")].

Definition decision_sql_chain : pyval :=
  PDict [(PStr "agents", PList [step_named "SQLGenerator"; step_named "SQLRunner"; step_named "Summarizer"])].


Definition decision_bad_middle : pyval :=
  PDict [(PStr "agents", PList [step_named "Planner"; PDict [(PStr "name", PList [PStr "A"])]; step_named "Validator"])].

Definition validate_bad_name : pyval :=
  PDict [(PStr "agents", PList [PDict [(PStr "name", PStr "DropTables")]])].
Definition redact_sample : pyval :=
  PDict [(PStr "api_key", PStr "abc"); (PStr "rows", PList [PDict [(PStr "token", PInt 3); (PStr "n", PInt 1)]])].
Definition no_register : pyval -> string -> pyval -> bool := fun _ _ _ => false.

Definition no_json : string -> res pyval := fun _ => Err "JSONDecodeError".

Definition float_obj : Q -> pyval := fun _ => PObj "float".

Definition agent_plain : agent :=
  {| a_conn := PNone; a_llm := PNone; a_use_langgraph := PStr "auto"; a_table_name := "full_df" |}.

End ExtraSamples.

(** * Properties *)

(** Induction over [pyval] through its nested lists. *)
Section PyvalInd.
Variable P : pyval -> Prop.
Hypothesis HNone : P PNone.
Hypothesis HBool : forall b, P (PBool b).
Hypothesis HInt : forall z, P (PInt z).
Hypothesis HStr : forall s, P (PStr s).
Hypothesis HList : forall l, Forall P l -> P (PList l).
Hypothesis HDict : forall kvs, Forall (fun kv => P (snd kv)) kvs -> P (PDict kvs).
Hypothesis HObj : forall t, P (PObj t).

Fixpoint pyval_ind' (v : pyval) : P v :=
  match v with
  | PNone => HNone
  | PBool b => HBool b
  | PInt z => HInt z
  | PStr s => HStr s
  | PList l =>
      HList l ((fix go (l : list pyval) : Forall P l :=
                  match l with
                  | [] => Forall_nil _
                  | x :: r => Forall_cons _ (pyval_ind' x) (go r)
                  end) l)
  | PDict kvs =>
      HDict kvs ((fix go (kvs : list (pyval * pyval)) : Forall (fun kv => P (snd kv)) kvs :=
                    match kvs with
                    | [] => Forall_nil _
                    | (k, x) :: r => Forall_cons (P := fun kv => P (snd kv)) (k, x) (pyval_ind' x) (go r)
                    end) kvs)
  | PObj t => HObj t
  end.
End PyvalInd.

Module RedactionProofs.
Import Redaction.

Lemma redact_entries_ok (kvs : list (pyval * pyval)) :
  Forall (fun kv => json_like (snd kv) = true -> exists y, _redact (snd kv) = Ok y) kvs ->
  forallb (fun '(k, x) => match k with PStr _ => json_like x | _ => false end) kvs = true ->
  exists kvs', redact_entries _redact kvs = Ok kvs'.
Proof.
  induction kvs as [| [k x] rest IH]; intros HF Hj; simpl in *.
  - eauto.
  - inversion HF as [| ? ? Hx Hrest]; subst.
    destruct k; try discriminate.
    apply andb_true_iff in Hj as [Hjx Hjr].
    destruct (IH Hrest Hjr) as [rest' Hr].
    destruct (sensitive_key s).
    + rewrite Hr; simpl; eauto.
    + destruct (Hx Hjx) as [y Hy]; simpl in Hy.
      rewrite Hy; simpl; rewrite Hr; simpl; eauto.
Qed.

Lemma redact_items_ok (l : list pyval) :
  Forall (fun x => json_like x = true -> exists y, _redact x = Ok y) l ->
  forallb json_like l = true ->
  exists l', redact_items _redact l = Ok l'.
Proof.
  induction l as [| x r IH]; intros HF Hj; simpl in *.
  - eauto.
  - inversion HF as [| ? ? Hx Hr]; subst.
    apply andb_true_iff in Hj as [Hjx Hjr].
    destruct (Hx Hjx) as [y Hy]; destruct (IH Hr Hjr) as [r' Hr'].
    rewrite Hy; simpl; rewrite Hr'; simpl; eauto.
Qed.

(** On a JSON-like value [_redact] never raises. *)
Lemma redact_json_like_ok (v : pyval) :
  json_like v = true -> exists v', _redact v = Ok v'.
Proof.
  induction v using pyval_ind'; intros Hj; simpl in *; eauto.
  - destruct (redact_items_ok l H Hj) as [l' Hl]; rewrite Hl; simpl; eauto.
  - destruct (redact_entries_ok kvs H Hj) as [kvs' Hk]; rewrite Hk; simpl; eauto.
Qed.

Lemma redact_entries_get (f : pyval -> res pyval) kvs kvs' k y :
  redact_entries f kvs = Ok kvs' -> dget kvs k = Some y ->
  (sensitive_key k = true /\ dget kvs' k = Some (PStr REDACTED))
  \/ (sensitive_key k = false /\ exists y', f y = Ok y' /\ dget kvs' k = Some y').
Proof.
  revert kvs'; induction kvs as [| [k0 x] rest IH]; intros kvs' Hr Hg; simpl in *.
  - discriminate.
  - destruct k0; try discriminate.
    destruct (sensitive_key s) eqn:Hs.
    + destruct (redact_entries f rest) as [rest' |] eqn:Hrest; simpl in Hr; inversion Hr; subst.
      simpl. destruct (String.eqb s k) eqn:Hsk.
      * apply String.eqb_eq in Hsk; subst. inversion Hg; subst. left; auto.
      * eauto.
    + destruct (f x) as [x' |] eqn:Hx; simpl in Hr; try discriminate.
      destruct (redact_entries f rest) as [rest' |] eqn:Hrest; simpl in Hr; inversion Hr; subst.
      simpl. destruct (String.eqb s k) eqn:Hsk.
      * apply String.eqb_eq in Hsk; subst. inversion Hg; subst. right; eauto.
      * eauto.
Qed.

Lemma redact_items_nth (f : pyval -> res pyval) l l' n y :
  redact_items f l = Ok l' -> nth_error l n = Some y ->
  exists y', f y = Ok y' /\ nth_error l' n = Some y'.
Proof.
  revert l' n; induction l as [| x r IH]; intros l' n Hr Hn; simpl in *.
  - destruct n; discriminate.
  - destruct (f x) as [x' |] eqn:Hx; simpl in Hr; try discriminate.
    destruct (redact_items f r) as [r' |] eqn:Hrr; simpl in Hr; inversion Hr; subst.
    destruct n as [| n]; simpl in *.
    + inversion Hn; subst; eauto.
    + eauto.
Qed.

Lemma redact_dict kvs :
  _redact (PDict kvs) = (kvs' <- redact_entries _redact kvs ;; Ok (PDict kvs')).
Proof. reflexivity. Qed.

Lemma redact_list l :
  _redact (PList l) = (l' <- redact_items _redact l ;; Ok (PList l')).
Proof. reflexivity. Qed.

(** Redaction commutes with following a clean path. *)
Lemma redact_get_path (p : list pstep) :
  forall v v' x, clean p = true -> _redact v = Ok v' -> get_path p v = Some x ->
  exists x', _redact x = Ok x' /\ get_path p v' = Some x'.
Proof.
  induction p as [| st p IH]; intros v v' x Hc Hr Hg; simpl in Hc, Hg |- *.
  - inversion Hg; subst; eauto.
  - apply andb_true_iff in Hc as [Hst Hc].
    destruct st as [k | n].
    + destruct v; try discriminate. rewrite redact_dict in Hr.
      destruct (dget kvs k) as [y |] eqn:Hy; try discriminate.
      destruct (redact_entries _redact kvs) as [kvs' |] eqn:He;
        simpl in Hr; inversion Hr; subst.
      destruct (redact_entries_get _ _ _ _ _ He Hy) as [[Hs _] | [_ [y' [Hy' Hk]]]].
      * rewrite Hs in Hst; discriminate.
      * simpl; rewrite Hk; eauto.
    + destruct v; try discriminate. rewrite redact_list in Hr.
      destruct (nth_error l n) as [y |] eqn:Hy; try discriminate.
      destruct (redact_items _redact l) as [l' |] eqn:He;
        simpl in Hr; inversion Hr; subst.
      destruct (redact_items_nth _ _ _ _ _ He Hy) as [y' [Hy' Hn]].
      simpl; rewrite Hn; eauto.
Qed.

Lemma get_path_app (p q : list pstep) v :
  get_path (p ++ q)%list v = match get_path p v with Some x => get_path q x | None => None end.
Proof.
  revert v; induction p as [| [k | n] p IH]; intros v; simpl; auto.
  - destruct v; auto. destruct (dget kvs k); auto.
  - destruct v; auto. destruct (nth_error l n); auto.
Qed.

Lemma lower_prefix (w s : string) :
  lower w = w -> prefix w s = true -> prefix w (lower s) = true.
Proof.
  revert s; induction w as [| c w IH]; intros s Hw Hp.
  - destruct (lower s); reflexivity.
  - destruct s as [| c' s]; [discriminate |].
    simpl in Hw, Hp |- *. injection Hw as Hc Hw.
    destruct (ascii_dec c c') as [<- |]; [| discriminate].
    rewrite Hc. destruct (ascii_dec c c) as [_ | n]; [| congruence].
    apply IH; auto.
Qed.

Lemma prefix_weaken (w1 w2 s : string) :
  prefix (w1 ++ w2) s = true -> prefix w1 s = true.
Proof.
  revert s; induction w1 as [| c w1 IH]; intros s H; [destruct s; reflexivity |].
  destruct s as [| c' s]; simpl in *; [discriminate |].
  destruct (ascii_dec c c'); auto.
Qed.

Lemma contains_api_key_sensitive (k : string) :
  contains "api_key" k = true -> sensitive_key k = true.
Proof.
  intros H. unfold sensitive_key. simpl.
  assert (Hc : contains "api" (lower k) = true).
  { induction k as [| c r IH]; simpl in *.
    - discriminate.
    - apply orb_true_iff in H as [H | H].
      + apply orb_true_iff; left.
        apply (lower_prefix "api" (String c r)); [reflexivity |].
        apply (prefix_weaken "api" "_key"); exact H.
      + apply orb_true_iff; right; auto. }
  rewrite Hc. rewrite !orb_true_r. reflexivity.
Qed.

(** C1. On every JSON-like value (nested mappings with string keys, lists,
    strings and primitives) [_redact] returns a value [v'] such that, along
    every path of [v] that does not pass through a sensitive key: the entry
    of a mapping whose lowercased key contains one of "key", "secret",
    "token", "password", "api" holds the marker "<REDACTED>" whatever its
    value was (a key containing "api_key" is such a key); a string leaf
    in which "sk-" is followed by eight or more characters of
    [A-Za-z0-9_-] is the marker; other string leaves and all other
    primitives are unchanged; and the entries under other keys are the
    redactions of the original ones. *)
Theorem redact_spec (v : pyval) :
  json_like v = true ->
  (forall k, contains "api_key" k = true -> sensitive_key k = true) /\
  exists v', _redact v = Ok v' /\
  forall p, clean p = true ->
    (forall kvs k x, get_path p v = Some (PDict kvs) -> dget kvs k = Some x ->
       sensitive_key k = true ->
       get_path (p ++ [SKey k])%list v' = Some (PStr REDACTED)) /\
    (forall kvs k x, get_path p v = Some (PDict kvs) -> dget kvs k = Some x ->
       sensitive_key k = false ->
       exists y, _redact x = Ok y /\ get_path (p ++ [SKey k])%list v' = Some y) /\
    (forall s, get_path p v = Some (PStr s) ->
       get_path p v' = Some (if has_secret s then PStr REDACTED else PStr s)) /\
    (forall x, get_path p v = Some x -> is_container x = false ->
       (forall s, x <> PStr s) -> get_path p v' = Some x).
Proof.
  intros Hj. split; [exact contains_api_key_sensitive |].
  destruct (redact_json_like_ok v Hj) as [v' Hv].
  exists v'; split; [exact Hv |].
  intros p Hc; repeat split.
  - intros kvs k x Hg Hk Hs.
    destruct (redact_get_path p v v' _ Hc Hv Hg) as [x' [Hx' Hp]].
    rewrite get_path_app, Hp.
    rewrite redact_dict in Hx'.
    destruct (redact_entries _redact kvs) as [kvs' |] eqn:He; simpl in Hx'; inversion Hx'; subst.
    destruct (redact_entries_get _ _ _ _ _ He Hk) as [[_ Hg'] | [Hs' _]].
    + simpl; rewrite Hg'; reflexivity.
    + congruence.
  - intros kvs k x Hg Hk Hs.
    destruct (redact_get_path p v v' _ Hc Hv Hg) as [x' [Hx' Hp]].
    rewrite get_path_app, Hp.
    rewrite redact_dict in Hx'.
    destruct (redact_entries _redact kvs) as [kvs' |] eqn:He; simpl in Hx'; inversion Hx'; subst.
    destruct (redact_entries_get _ _ _ _ _ He Hk) as [[Hs' _] | [_ [y [Hy Hg']]]].
    + congruence.
    + exists y; split; [exact Hy |]. simpl; rewrite Hg'; reflexivity.
  - intros s Hg.
    destruct (redact_get_path p v v' _ Hc Hv Hg) as [x' [Hx' Hp]].
    simpl in Hx'. inversion Hx'; subst. rewrite Hp.
    destruct (has_secret s); reflexivity.
  - intros x Hg Hnc Hns.
    destruct (redact_get_path p v v' _ Hc Hv Hg) as [x' [Hx' Hp]].
    rewrite Hp; f_equal.
    destruct x; simpl in *; try discriminate; try (inversion Hx'; reflexivity).
    exfalso; eapply Hns; reflexivity.
Qed.

(** The redaction of [{"config": {"API_KEY": 5, "note": "sk-abcdefgh123"}}]. *)
Lemma redact_spec_witness :
  exists v', _redact (PDict [(PStr "config",
                              PDict [(PStr "API_KEY", PInt 5);
                                     (PStr "note", PStr "sk-abcdefgh123")])]) = Ok v' /\
    get_path [SKey "config"; SKey "API_KEY"] v' = Some (PStr REDACTED) /\
    get_path [SKey "config"; SKey "note"] v' = Some (PStr REDACTED).
Proof.
  destruct (redact_spec (PDict [(PStr "config",
                              PDict [(PStr "API_KEY", PInt 5);
                                     (PStr "note", PStr "sk-abcdefgh123")])]) eq_refl)
    as [_ [v' [Hv Hp]]].
  exists v'; split; [exact Hv |].
  destruct (Hp [SKey "config"] eq_refl) as [H1 [_ [H3 _]]].
  split.
  - exact (H1 _ "API_KEY" (PInt 5) eq_refl eq_refl eq_refl).
  - destruct (Hp [SKey "config"; SKey "note"] eq_refl) as [_ [_ [H3' _]]].
    exact (H3' "sk-abcdefgh123" eq_refl).
Defined.

End RedactionProofs.

Module RouterProofs.
Import Router RouterSamples.

(** The alternation search succeeds iff one of the alternatives occurs as a
    whole word. *)
Lemma re_search_iff (ws : list string) (s : string) :
  re_search ws s = true <-> exists w, In w ws /\ whole_word w s = true.
Proof.
  unfold re_search, whole_word. rewrite existsb_exists. split.
  - intros [i [Hi Hw]]. apply existsb_exists in Hw as [w [Hin Hm]].
    exists w; split; [exact Hin |]. apply existsb_exists; eauto.
  - intros [w [Hin Hw]]. apply existsb_exists in Hw as [i [Hi Hm]].
    exists i; split; [exact Hi |]. apply existsb_exists; eauto.
Qed.

Lemma re_search_false (ws : list string) (s : string) :
  (forall w, In w ws -> whole_word w s = false) -> re_search ws s = false.
Proof.
  intros H. destruct (re_search ws s) eqn:E; [| reflexivity].
  apply re_search_iff in E as [w [Hin Hw]]. rewrite (H w Hin) in Hw. discriminate.
Qed.

(** C3 (amended). For every prompt, with no user mode, in which one of
    "summary", "summarize", "describe", "overview", "insight" occurs as a
    whole word of the lowercased prompt and none of the router's analysis
    alternatives "analy", "analysis", "analyze", "regress", "correlat",
    "drivers", "model", "predict" does, [detect_intent] returns intent
    "summarize" with confidence 0.93 and agents [Planner; Summarizer]; so
    never "sql", whatever SQL word the prompt also contains. *)
Theorem detect_intent_summarize (prompt : string) :
  (exists w, In w ["summary"; "summarize"; "describe"; "overview"; "insight"]
             /\ whole_word w (lower prompt) = true) ->
  (forall w, In w analyze_words -> whole_word w (lower prompt) = false) ->
  detect_intent (Some prompt) None = summarize_route.
Proof.
  intros [w [Hin Hw]] Hno. unfold detect_intent, classify.
  rewrite (re_search_false _ _ Hno).
  assert (Hs : re_search summarize_words (lower prompt) = true).
  { apply re_search_iff. exists w; split; [| exact Hw].
    simpl in Hin |- *. tauto. }
  rewrite Hs. reflexivity.
Qed.

Lemma detect_intent_summarize_witness :
  detect_intent (Some "Provide a summary of sales") None = summarize_route.
Proof.
  apply detect_intent_summarize.
  - exists "summary"; split; [simpl; tauto | vm_compute; reflexivity].
  - intros w Hw; simpl in Hw.
    repeat (destruct Hw as [<- | Hw]; [vm_compute; reflexivity |]); destruct Hw.
Defined.

(** C3 counterexample. "give a summary of how prices regress": "summary"
    is a whole word and none of analyze, analysis, regression, correlate,
    drivers, model, predict is, yet the intent is "analyze" (the bare stem
    "regress" is one of the router's analysis alternatives). *)
Lemma detect_intent_summarize_counterexample :
  whole_word "summary" (lower "give a summary of how prices regress") = true /\
  (forall w, In w ["analyze"; "analysis"; "regression"; "correlate"; "drivers"; "model"; "predict"] ->
     whole_word w (lower "give a summary of how prices regress") = false) /\
  intent (detect_intent (Some "give a summary of how prices regress") None) = "analyze".
Proof.
  split; [vm_compute; reflexivity |]. split; [| vm_compute; reflexivity].
  intros w Hw; simpl in Hw.
  repeat (destruct Hw as [<- | Hw]; [vm_compute; reflexivity |]); destruct Hw.
Qed.

(** The analysis words the router does recognise as whole words. *)
Lemma detect_intent_analysis_words (prompt : string) :
  (exists w, In w ["analyze"; "analysis"; "drivers"; "model"; "predict"]
             /\ whole_word w (lower prompt) = true) ->
  detect_intent (Some prompt) None = analyze_route.
Proof.
  intros [w [Hin Hw]]. unfold detect_intent, classify.
  assert (Ha : re_search analyze_words (lower prompt) = true).
  { apply re_search_iff. exists w; split; [| exact Hw]. simpl in Hin |- *. tauto. }
  rewrite Ha. reflexivity.
Qed.

(** C8 (code bug). "regression" and "correlate" occur as whole words, yet
    the router answers "unknown": its alternatives "regress" and
    "correlat" are followed by [\b], which cannot hold inside those words. *)
Theorem detect_intent_regression_unknown :
  whole_word "regression" (lower "run a regression on price") = true /\
  detect_intent (Some "run a regression on price") None = unknown_route /\
  whole_word "correlate" (lower "correlate price with sales") = true /\
  detect_intent (Some "correlate price with sales") None = unknown_route.
Proof. vm_compute. repeat split. Qed.

End RouterProofs.

Module MappingProofs.
Import Mapping MappingSpec.

Lemma py_key_eqb_canon (a b : pyval) :
  py_key_eqb a b = true <-> kcanon a = kcanon b /\ kcanon a <> None.
Proof.
  split.
  - destruct a, b; simpl; intros H; try discriminate;
      try apply Bool.eqb_prop in H; try apply Z.eqb_eq in H;
      try apply String.eqb_eq in H; subst;
      split; try discriminate; reflexivity.
  - intros [H1 H2]; destruct a, b; simpl in *; try congruence;
      repeat match goal with bb : bool |- _ => destruct bb end; simpl in *;
      try congruence; injection H1; intros; subst;
      try apply Z.eqb_refl; try apply String.eqb_refl; reflexivity.
Qed.

Lemma py_key_eqb_sym (a b : pyval) : py_key_eqb a b = py_key_eqb b a.
Proof.
  destruct (py_key_eqb a b) eqn:E1, (py_key_eqb b a) eqn:E2; auto.
  - apply py_key_eqb_canon in E1 as [H1 H2].
    assert (py_key_eqb b a = true) by (apply py_key_eqb_canon; split; congruence). congruence.
  - apply py_key_eqb_canon in E2 as [H1 H2].
    assert (py_key_eqb a b = true) by (apply py_key_eqb_canon; split; congruence). congruence.
Qed.

Lemma py_key_eqb_trans (a b c : pyval) :
  py_key_eqb a b = true -> py_key_eqb b c = true -> py_key_eqb a c = true.
Proof.
  intros H1 H2. apply py_key_eqb_canon in H1 as [H1 H1'], H2 as [H2 H2'].
  apply py_key_eqb_canon; split; congruence.
Qed.

Lemma assoc_get_set {A} (tbl : list (pyval * A)) (k dep : pyval) (v : A) :
  assoc_get (assoc_set tbl k v) dep = if py_key_eqb k dep then Some v else assoc_get tbl dep.
Proof.
  induction tbl as [| [k' v'] rest IH]; simpl.
  - destruct (py_key_eqb k dep); reflexivity.
  - destruct (py_key_eqb k' k) eqn:Ek; simpl.
    + destruct (py_key_eqb k' dep) eqn:Ed, (py_key_eqb k dep) eqn:Ed'; auto.
      * rewrite py_key_eqb_sym in Ek.
        rewrite (py_key_eqb_trans _ _ _ Ek Ed) in Ed'; discriminate.
      * rewrite (py_key_eqb_trans _ _ _ Ek Ed') in Ed; discriminate.
    + rewrite IH. destruct (py_key_eqb k' dep) eqn:Ed, (py_key_eqb k dep) eqn:Ed'; auto.
      rewrite py_key_eqb_sym in Ed'.
      rewrite (py_key_eqb_trans _ _ _ Ed Ed') in Ek; discriminate.
Qed.

Lemma mapM_nth {A B} (f : A -> res B) (l : list A) (l' : list B) :
  mapM f l = Ok l' ->
  length l' = length l /\
  forall i x, nth_error l i = Some x -> exists y, f x = Ok y /\ nth_error l' i = Some y.
Proof.
  revert l'; induction l as [| x r IH]; intros l' H; simpl in H.
  - inversion H; subst; split; [reflexivity |]. intros [|i] ? Hn; discriminate.
  - destruct (f x) as [y |] eqn:Hy; simpl in H; [| discriminate].
    destruct (mapM f r) as [ys |] eqn:Hys; simpl in H; inversion H; subst.
    destruct (IH ys eq_refl) as [Hl Hn]. split; [simpl; congruence |].
    intros [| i] z Hz; simpl in Hz.
    + inversion Hz; subst; eauto.
    + simpl; eauto.
Qed.

Lemma mapM_map {A B} (f : A -> res B) (g : A -> B) (l : list A) (l' : list B) :
  (forall x, In x l -> forall y, f x = Ok y -> y = g x) ->
  mapM f l = Ok l' -> l' = map g l.
Proof.
  revert l'; induction l as [| x r IH]; intros l' Hfg H; simpl in H.
  - inversion H; reflexivity.
  - destruct (f x) as [y |] eqn:Hy; simpl in H; [| discriminate].
    destruct (mapM f r) as [ys |] eqn:Hys; simpl in H; inversion H; subst.
    simpl. rewrite (Hfg x (or_introl eq_refl) y Hy). f_equal.
    apply IH; auto. intros z Hz; apply Hfg; simpl; auto.
Qed.

(** What [mk_item] produces. *)
Lemma mk_item_spec idx a aid outs it :
  mk_item idx a = Ok (aid, outs, it) ->
  step_id idx a = Ok aid /\ declared_outputs a = Ok outs /\ hashable aid = true /\
  i_id it = aid /\ i_inputs it = [] /\
  (py_get a "depends_on" = Ok None -> i_depends_on it = []) /\
  (py_get a "depends_on" = Ok (Some PNone) -> i_depends_on it = []) /\
  (forall x, x <> PNone -> py_get a "depends_on" = Ok (Some x) -> py_iter x = Ok (i_depends_on it)).
Proof.
  unfold mk_item. intros H.
  destruct (step_id idx a) as [aid' |] eqn:Hid; simpl in H; [| discriminate].
  destruct (declared_outputs a) as [outs' |] eqn:Ho; simpl in H; [| discriminate].
  destruct (hashable aid') eqn:Hh; simpl in H; [| discriminate].
  destruct (py_get_or a "name" _) as [nm |]; simpl in H; [| discriminate].
  destruct (py_get_or a "params" _) as [pm |]; simpl in H; [| discriminate].
  destruct (declared_outputs a) as [outs2 |]; simpl in H; [| discriminate].
  destruct (py_get a "depends_on") as [dop |] eqn:Hd; simpl in H; [| discriminate].
  destruct dop as [d |].
  - destruct d;
      try (destruct (py_iter _) as [deps |] eqn:Hi; simpl in H; [| discriminate]);
      inversion H; subst; simpl; repeat split; auto; intros; try congruence;
      match goal with
      | Heq : Ok (Some _) = Ok (Some _) |- _ => inversion Heq; subst; auto
      end.
  - inversion H; subst; simpl; repeat split; auto; intros; congruence.
Qed.

Lemma declared_outputs_nonempty a outs :
  declared_outputs a = Ok outs -> outs <> [].
Proof.
  unfold declared_outputs.
  destruct (py_get a "outputs") as [o1 |]; simpl; [| discriminate].
  destruct (py_get a "provides") as [o2 |]; simpl; [| discriminate].
  assert (G : forall v, truthy v = true ->
            py_iter (match v with PStr _ => PList [v] | _ => v end) = Ok outs -> outs <> []).
  { intros v Hv Hi.
    destruct v as [| b | z | s | l | kvs | t]; simpl in *; try discriminate;
      inversion Hi; subst; intros H; subst; simpl in *; try discriminate.
    destruct kvs; simpl in *; discriminate. }
  destruct (truthy (opt_none o1)) eqn:H1; [apply G; auto |].
  destruct (truthy (opt_none o2)) eqn:H2; [apply G; auto |].
  simpl. intros H; inversion H; subst; discriminate.
Qed.

Lemma collect_spec (agents : list pyval) :
  forall idx tbl its tbl', collect idx agents tbl = Ok (its, tbl') ->
  length its = length agents /\
  (forall i a, nth_error agents i = Some a ->
     exists aid outs it, mk_item (idx + i) a = Ok (aid, outs, it) /\ nth_error its i = Some it) /\
  (forall dep, tbl_out tbl' dep = ref_lookup idx agents dep (tbl_out tbl dep)).
Proof.
  induction agents as [| a rest IH]; intros idx tbl its tbl' H; simpl in H.
  - inversion H; subst. split; [reflexivity |]. split; [intros [|i] ? Hn; discriminate |].
    intros dep; reflexivity.
  - destruct (mk_item idx a) as [[[aid outs] it] |] eqn:Hm; simpl in H; [| discriminate].
    destruct (collect (S idx) rest (assoc_set tbl aid outs)) as [[its0 tbl0] |] eqn:Hc;
      simpl in H; inversion H; subst.
    destruct (IH _ _ _ _ Hc) as [Hl [Hn Ht]].
    split; [simpl; congruence |]. split.
    + intros [| i] b Hb; simpl in Hb.
      * inversion Hb; subst. exists aid, outs, it. rewrite Nat.add_0_r. auto.
      * destruct (Hn i b Hb) as [aid' [outs' [it' [Hm' Hi']]]].
        exists aid', outs', it'. rewrite <- Nat.add_succ_comm. auto.
    + intros dep. rewrite Ht. simpl. f_equal.
      destruct (mk_item_spec _ _ _ _ _ Hm) as [Hid [Ho [Hh _]]].
      rewrite Hid, Ho.
      pose proof (declared_outputs_nonempty _ _ Ho) as Hne.
      unfold tbl_out at 1. rewrite assoc_get_set.
      destruct outs as [| o os]; [congruence |].
      destruct (py_key_eqb aid dep); reflexivity.
Qed.

Lemma chain_from_spec (its : list item) :
  forall prev i it, nth_error its i = Some it ->
  exists it', nth_error (chain_from prev its) i = Some it' /\
    i_id it' = i_id it /\ i_inputs it' = i_inputs it /\
    i_depends_on it' = [match i with O => prev | S k => match nth_error its k with
                                                   | Some p => i_id p | None => prev end end].
Proof.
  induction its as [| x r IH]; intros prev i it Hn; [destruct i; discriminate |].
  destruct i as [| k]; simpl in Hn.
  - inversion Hn; subst. exists (with_deps it [prev]); simpl; auto.
  - destruct (IH (i_id x) k it Hn) as [it' [H1 [H2 [H3 H4]]]].
    exists it'; simpl; repeat split; auto. rewrite H4.
    destruct k as [| k]; [reflexivity |]. simpl.
    destruct (nth_error r k) eqn:E; [reflexivity |].
    apply nth_error_None in E.
    assert (S k < length r) by (apply nth_error_Some; congruence). lia.
Qed.

Lemma chain_spec (its : list item) i it :
  nth_error its i = Some it ->
  exists it', nth_error (chain its) i = Some it' /\
    i_id it' = i_id it /\ i_inputs it' = i_inputs it /\
    (i = 0 -> i_depends_on it' = i_depends_on it) /\
    (forall k p, i = S k -> nth_error its k = Some p -> i_depends_on it' = [i_id p]).
Proof.
  destruct its as [| x r]; [destruct i; discriminate |].
  destruct i as [| k]; simpl; intros Hn.
  - inversion Hn; subst. exists it; repeat split; auto. intros; discriminate.
  - destruct (chain_from_spec r (i_id x) k it Hn) as [it' [H1 [H2 [H3 H4]]]].
    exists it'; repeat split; auto; [intros; discriminate |].
    intros k' p Hk Hp. injection Hk as <-. rewrite H4.
    destruct k as [| k]; simpl in Hp.
    + inversion Hp; reflexivity.
    + rewrite Hp; reflexivity.
Qed.

Lemma chain_length (its : list item) : length (chain its) = length its.
Proof.
  destruct its as [| x r]; [reflexivity |]. simpl. f_equal.
  revert x; induction r as [| y r IH]; intros x; simpl; auto.
Qed.

Lemma py_iter_falsy x l : truthy x = false -> py_iter x = Ok l -> l = [].
Proof.
  destruct x as [| b | z | s | l0 | kvs | t]; simpl; intros Ht Hi; try discriminate.
  - apply Bool.negb_false_iff, String.eqb_eq in Ht; subst. inversion Hi; reflexivity.
  - destruct l0; [inversion Hi; reflexivity | discriminate].
  - destruct kvs; [inversion Hi; reflexivity | discriminate].
Qed.

Lemma fill_inputs_spec agents tbl it it' :
  (forall dep, tbl_out tbl dep = ref_output agents dep) ->
  fill_inputs tbl it = Ok it' ->
  i_id it' = i_id it /\ i_depends_on it' = i_depends_on it /\
  i_inputs it' = map (fun dep => PDict [(PStr "from", dep); (PStr "output", ref_output agents dep)])
                     (i_depends_on it).
Proof.
  intros Ht H. unfold fill_inputs in H.
  destruct (mapM (input_ref tbl) (i_depends_on it)) as [ins |] eqn:Hm; simpl in H; inversion H; subst.
  simpl; repeat split.
  refine (mapM_map _ _ _ _ _ Hm). intros x _ y Hy.
  unfold input_ref in Hy.
  destruct (hashable x); simpl in Hy; [| discriminate].
  rewrite <- Ht. unfold tbl_out.
  destruct (assoc_get tbl x) as [[| o os] |]; inversion Hy; reflexivity.
Qed.

Lemma truthy_py_iter x l : py_iter x = Ok l -> truthy (PList l) = truthy x.
Proof.
  destruct x as [| b | z | s | l0 | kvs | t]; simpl; intros Hi; try discriminate;
    inversion Hi; subst; auto.
  - destruct s; reflexivity.
  - destruct kvs; reflexivity.
Qed.

Lemma mk_item_declares idx a aid outs it :
  mk_item idx a = Ok (aid, outs, it) -> truthy (PList (i_depends_on it)) = declares_deps a.
Proof.
  unfold mk_item, declares_deps. intros H.
  destruct (step_id idx a) as [aid' |]; simpl in H; [| discriminate].
  destruct (declared_outputs a) as [outs' |]; simpl in H; [| discriminate].
  destruct (hashable aid'); simpl in H; [| discriminate].
  destruct (py_get_or a "name" _) as [nm |]; simpl in H; [| discriminate].
  destruct (py_get_or a "params" _) as [pm |]; simpl in H; [| discriminate].
  destruct (py_get a "depends_on") as [[d |] |]; simpl in H; [| | discriminate].
  - destruct d; simpl in H;
      try (destruct (py_iter _) as [ds |] eqn:Hd; simpl in H; [| discriminate]);
      inversion H; subst; simpl; try reflexivity;
      match goal with
      | s : string |- _ => destruct s; reflexivity
      | l : list (pyval * pyval) |- _ => destruct l; reflexivity
      end.
  - inversion H; subst; reflexivity.
Qed.

Lemma collect_declares (agents : list pyval) :
  forall idx tbl its tbl', collect idx agents tbl = Ok (its, tbl') ->
  existsb (fun it => truthy (PList (i_depends_on it))) its = existsb declares_deps agents.
Proof.
  induction agents as [| a rest IH]; intros idx tbl its tbl' H; simpl in H.
  - inversion H; reflexivity.
  - destruct (mk_item idx a) as [[[aid outs] it] |] eqn:Hm; simpl in H; [| discriminate].
    destruct (collect (S idx) rest (assoc_set tbl aid outs)) as [[its0 tbl0] |] eqn:Hc;
      simpl in H; inversion H; subst.
    simpl. rewrite <- (mk_item_declares _ _ _ _ _ Hm). f_equal. eapply IH; eauto.
Qed.

Lemma existsb_false_In {A} (f : A -> bool) l x : existsb f l = false -> In x l -> f x = false.
Proof.
  intros H Hin. destruct (f x) eqn:E; auto.
  assert (existsb f l = true) by (apply existsb_exists; eauto). congruence.
Qed.

Lemma build_run_payload_agents d agents :
  py_get d "agents" = Ok (Some (PList agents)) ->
  build_run_payload d =
    (r <- collect 0 agents [] ;;
     let '(its, tbl) := r in
     let its := if existsb (fun it => truthy (PList (i_depends_on it))) its then its else chain its in
     its' <- mapM (fill_inputs tbl) its ;;
     Ok (PDict [(PStr "name", PStr "duckagent_decision"); (PStr "items", PList (map item_py its'))])).
Proof.
  intros H. unfold build_run_payload, py_get_or. rewrite H. simpl. destruct agents; reflexivity.
Qed.

(** The whole of [build_run_payload] on a decision whose [agents] is a list. *)
Lemma build_run_payload_core d agents payload :
  py_get d "agents" = Ok (Some (PList agents)) ->
  build_run_payload d = Ok payload ->
  exists its,
    payload = PDict [(PStr "name", PStr "duckagent_decision"); (PStr "items", PList (map item_py its))] /\
    length its = length agents /\
    forall i a, nth_error agents i = Some a ->
      exists aid outs it0 it,
        mk_item i a = Ok (aid, outs, it0) /\ nth_error its i = Some it /\
        i_id it = aid /\
        (existsb declares_deps agents = true -> i_depends_on it = i_depends_on it0) /\
        (existsb declares_deps agents = false -> i = 0 -> i_depends_on it = []) /\
        (existsb declares_deps agents = false -> forall k a', i = S k -> nth_error agents k = Some a' ->
           exists pid, step_id k a' = Ok pid /\ i_depends_on it = [pid]) /\
        i_inputs it = map (fun dep => PDict [(PStr "from", dep); (PStr "output", ref_output agents dep)])
                          (i_depends_on it).
Proof.
  intros Hag H. rewrite (build_run_payload_agents _ _ Hag) in H.
  destruct (collect 0 agents []) as [[its0 tbl] |] eqn:Hc; cbn [bind] in H; [| discriminate].
  set (its1 := if existsb (fun it => truthy (PList (i_depends_on it))) its0 then its0 else chain its0) in H.
  destruct (mapM (fill_inputs tbl) its1) as [its' |] eqn:Hf; simpl in H; inversion H; subst.
  destruct (collect_spec _ _ _ _ _ Hc) as [Hl [Hn Ht]].
  pose proof (collect_declares _ _ _ _ _ Hc) as Hd.
  destruct (mapM_nth _ _ _ Hf) as [Hl' Hn'].
  assert (Hl1 : length its1 = length its0)
    by (unfold its1; destruct (existsb (fun it => truthy (PList (i_depends_on it))) its0);
        [reflexivity | apply chain_length]).
  assert (Ht' : forall dep, tbl_out tbl dep = ref_output agents dep) by (intros dep; apply Ht).
  exists its'. split; [reflexivity |]. split; [congruence |].
  intros i a Ha.
  destruct (Hn i a Ha) as [aid [outs [it0 [Hm Hi0]]]].
  destruct (mk_item_spec _ _ _ _ _ Hm) as [Hid [_ [_ [Hiid _]]]].
  assert (Hc1 : exists it1, nth_error its1 i = Some it1 /\ i_id it1 = aid /\
     (existsb declares_deps agents = true -> i_depends_on it1 = i_depends_on it0) /\
     (existsb declares_deps agents = false -> i = 0 -> i_depends_on it1 = []) /\
     (existsb declares_deps agents = false -> forall k a', i = S k -> nth_error agents k = Some a' ->
        exists pid, step_id k a' = Ok pid /\ i_depends_on it1 = [pid])).
  { unfold its1. rewrite Hd.
    destruct (existsb declares_deps agents) eqn:Ex.
    - exists it0. repeat split; auto; intros; discriminate.
    - destruct (chain_spec _ _ _ Hi0) as [it1 [H1 [H2 [H3 [H4 H5]]]]].
      exists it1. repeat split; auto; try congruence; try discriminate.
      + intros _ Hi. rewrite (H4 Hi).
        assert (Hf0 : truthy (PList (i_depends_on it0)) = false).
        { eapply (existsb_false_In _ _ _ Hd). eapply nth_error_In; eauto. }
        destruct (i_depends_on it0); [reflexivity | discriminate].
      + intros _ k a' Hk Ha'.
        destruct (Hn k a' Ha') as [pid [outs' [p [Hm' Hp]]]].
        destruct (mk_item_spec _ _ _ _ _ Hm') as [Hpid [_ [_ [Hpi _]]]].
        exists pid. split; [exact Hpid |]. rewrite (H5 k p Hk Hp). congruence. }
  destruct Hc1 as [it1 [Hi1 [Hid1 [Hx [Hy Hz]]]]].
  destruct (Hn' i it1 Hi1) as [it [Hfi Hit]].
  destruct (fill_inputs_spec _ _ _ _ Ht' Hfi) as [F1 [F2 F3]].
  exists aid, outs, it0, it.
  split; [exact Hm |]. split; [exact Hit |]. split; [congruence |].
  split; [intros E; rewrite F2; auto |].
  split; [intros E Hi; rewrite F2; auto |].
  split; [intros E k a' Hk Ha'; rewrite F2; eauto |].
  rewrite F3, F2; reflexivity.
Qed.

(** C7 (amended). For a decision whose [agents] is a list and on which
    [build_run_payload] returns: item [i] carries [step_id i a_i] (the
    declared id, or "node_i" when it is absent or falsy); when no step
    declares a truthy [depends_on], item 0 has no dependency and item [i+1]
    depends exactly on item [i]'s id; a non-empty list [depends_on] is kept
    verbatim; the inputs of every item are, for each dependency [dep],
    [{"from": dep, "output": o}] with [o] the first output declared
    ([outputs], else [provides], else "result") by the last step whose id is
    [dep], and "result" when no step has that id. *)
Theorem build_run_payload_spec d agents payload :
  py_get d "agents" = Ok (Some (PList agents)) ->
  build_run_payload d = Ok payload ->
  exists its,
    payload = PDict [(PStr "name", PStr "duckagent_decision"); (PStr "items", PList (map item_py its))] /\
    length its = length agents /\
    forall i a, nth_error agents i = Some a ->
      exists it, nth_error its i = Some it /\
        step_id i a = Ok (i_id it) /\
        (existsb declares_deps agents = false -> i = 0 -> i_depends_on it = []) /\
        (existsb declares_deps agents = false -> forall k a', i = S k -> nth_error agents k = Some a' ->
           exists pid, step_id k a' = Ok pid /\ i_depends_on it = [pid]) /\
        (forall ds, py_get a "depends_on" = Ok (Some (PList ds)) -> ds <> [] -> i_depends_on it = ds) /\
        i_inputs it = map (fun dep => PDict [(PStr "from", dep); (PStr "output", ref_output agents dep)])
                          (i_depends_on it).
Proof.
  intros Hag H.
  destruct (build_run_payload_core _ _ _ Hag H) as [its [Hp [Hl Hall]]].
  exists its. split; [exact Hp |]. split; [exact Hl |].
  intros i a Ha.
  destruct (Hall i a Ha) as [aid [outs [it0 [it [Hm [Hi [Hid [Hx [Hy [Hz Hin]]]]]]]]]].
  destruct (mk_item_spec _ _ _ _ _ Hm) as [Hsid [_ [_ [_ [_ [_ [_ Hdeps]]]]]]].
  exists it. split; [exact Hi |]. split; [congruence |].
  split; [exact Hy |]. split; [exact Hz |]. split; [| exact Hin].
  intros ds Hd Hne. rewrite Hx.
  - apply Hdeps in Hd; [| discriminate]. simpl in Hd. congruence.
  - apply existsb_exists. exists a. split; [eapply nth_error_In; eauto |].
    unfold declares_deps. rewrite Hd. destruct ds; [congruence | reflexivity].
Qed.

Lemma build_run_payload_spec_witness :
  exists payload,
    build_run_payload decision_explicit = Ok payload /\
    exists its,
      payload = PDict [(PStr "name", PStr "duckagent_decision"); (PStr "items", PList (map item_py its))] /\
      length its = 3 /\
      forall i a, nth_error [step_sql; step_run; step_sum] i = Some a ->
        exists it, nth_error its i = Some it /\
          step_id i a = Ok (i_id it) /\
          (existsb declares_deps [step_sql; step_run; step_sum] = false -> i = 0 -> i_depends_on it = []) /\
          (existsb declares_deps [step_sql; step_run; step_sum] = false ->
             forall k a', i = S k -> nth_error [step_sql; step_run; step_sum] k = Some a' ->
             exists pid, step_id k a' = Ok pid /\ i_depends_on it = [pid]) /\
          (forall ds, py_get a "depends_on" = Ok (Some (PList ds)) -> ds <> [] -> i_depends_on it = ds) /\
          i_inputs it = map (fun dep => PDict [(PStr "from", dep);
                                               (PStr "output", ref_output [step_sql; step_run; step_sum] dep)])
                            (i_depends_on it).
Proof.
  eexists. split; [reflexivity |].
  apply (build_run_payload_spec decision_explicit [step_sql; step_run; step_sum]); reflexivity.
Defined.

(** C7, as stated: an explicit [depends_on] is not always preserved
    verbatim. Step B declares [depends_on: []]; no step declares a truthy
    one, so the linear chain overwrites it with [["node_0"]]. *)
Lemma build_run_payload_explicit_counterexample :
  py_get step_B_nodeps "depends_on" = Ok (Some (PList [])) /\
  build_run_payload decision_empty_deps =
    Ok (PDict [(PStr "name", PStr "duckagent_decision");
               (PStr "items", PList
                  [PDict [(PStr "id", PStr "node_0"); (PStr "name", PStr "A"); (PStr "params", PDict []);
                          (PStr "outputs", PList [PStr "result"]); (PStr "depends_on", PList []);
                          (PStr "inputs", PList [])];
                   PDict [(PStr "id", PStr "node_1"); (PStr "name", PStr "B"); (PStr "params", PDict []);
                          (PStr "outputs", PList [PStr "result"]); (PStr "depends_on", PList [PStr "node_0"]);
                          (PStr "inputs", PList [PDict [(PStr "from", PStr "node_0");
                                                        (PStr "output", PStr "result")]])]])]).
Proof. split; vm_compute; reflexivity. Qed.

(** C10. Chaining is all or nothing: once some step declares a non-empty
    list [depends_on], every step whose [depends_on] is absent or [None]
    ends with no dependency and no input. *)
Theorem build_run_payload_no_partial_chain d agents payload j aj ds :
  py_get d "agents" = Ok (Some (PList agents)) ->
  build_run_payload d = Ok payload ->
  nth_error agents j = Some aj ->
  py_get aj "depends_on" = Ok (Some (PList ds)) -> ds <> [] ->
  exists its,
    payload = PDict [(PStr "name", PStr "duckagent_decision"); (PStr "items", PList (map item_py its))] /\
    forall i a, nth_error agents i = Some a ->
      (py_get a "depends_on" = Ok None \/ py_get a "depends_on" = Ok (Some PNone)) ->
      exists it, nth_error its i = Some it /\ i_depends_on it = [] /\ i_inputs it = [].
Proof.
  intros Hag H Hj Hd Hne.
  destruct (build_run_payload_core _ _ _ Hag H) as [its [Hp [_ Hall]]].
  assert (Ex : existsb declares_deps agents = true).
  { apply existsb_exists. exists aj. split; [eapply nth_error_In; eauto |].
    unfold declares_deps. rewrite Hd. destruct ds; [congruence | reflexivity]. }
  exists its. split; [exact Hp |].
  intros i a Ha Hnone.
  destruct (Hall i a Ha) as [aid [outs [it0 [it [Hm [Hi [_ [Hx [_ [_ Hin]]]]]]]]]].
  destruct (mk_item_spec _ _ _ _ _ Hm) as [_ [_ [_ [_ [_ [H1 [H2 _]]]]]]].
  assert (Hdep : i_depends_on it = []).
  { rewrite (Hx Ex). destruct Hnone; auto. }
  exists it. split; [exact Hi |]. split; [exact Hdep |]. rewrite Hin, Hdep. reflexivity.
Qed.

Lemma build_run_payload_no_partial_chain_witness :
  exists payload,
    build_run_payload decision_explicit = Ok payload /\
    exists its,
      payload = PDict [(PStr "name", PStr "duckagent_decision"); (PStr "items", PList (map item_py its))] /\
      forall i a, nth_error [step_sql; step_run; step_sum] i = Some a ->
        (py_get a "depends_on" = Ok None \/ py_get a "depends_on" = Ok (Some PNone)) ->
        exists it, nth_error its i = Some it /\ i_depends_on it = [] /\ i_inputs it = [].
Proof.
  eexists. split; [reflexivity |].
  apply (build_run_payload_no_partial_chain decision_explicit [step_sql; step_run; step_sum] _ 1 step_run
           [PStr "sql"]); try reflexivity. discriminate.
Defined.

End MappingProofs.

Module PlannerProofs.
Import Planner PlannerSamples.

Lemma has_data_true obj_len context :
  (exists fd, dget context "full_df" = Some fd /\ fd <> PNone) \/
  (exists x xs, dget context "rows_preview" = Some (PList (x :: xs))) ->
  has_data obj_len context = Ok true.
Proof.
  unfold has_data. intros [[fd [Hfd Hn]] | [x [xs Hr]]].
  - rewrite Hfd. simpl. destruct fd; simpl; congruence.
  - rewrite Hr. simpl. destruct (opt_none (dget context "full_df")); reflexivity.
Qed.

Lemma has_data_false obj_len context :
  opt_none (dget context "full_df") = PNone ->
  truthy (opt_none (dget context "rows_preview")) = false ->
  has_data obj_len context = Ok false.
Proof. unfold has_data. intros H1 H2. rewrite H1, H2. reflexivity. Qed.

Lemma llm_attempt_err json_loads generate intent prompt :
  ((exists e, generate (prompt_template prompt) = Err e) \/
   (exists raw, generate (prompt_template prompt) = Ok raw /\ forall s, raw <> PStr s) \/
   (exists s e, generate (prompt_template prompt) = Ok (PStr s) /\ json_loads (extract_json s) = Err e) \/
   (exists s obj e, generate (prompt_template prompt) = Ok (PStr s) /\
      json_loads (extract_json s) = Ok obj /\ _validate_decision obj = Err e)) ->
  exists e, llm_attempt json_loads generate intent prompt = Err e.
Proof.
  unfold llm_attempt.
  intros [[e He] | [[raw [Hr Hs]] | [[s [e [Hg Hj]]] | [s [obj [e [Hg [Hj Hv]]]]]]]].
  - rewrite He. eexists; reflexivity.
  - rewrite Hr. simpl. destruct raw; try (eexists; reflexivity). exfalso; eapply Hs; eauto.
  - rewrite Hg. simpl. rewrite Hj. eexists; reflexivity.
  - rewrite Hg. simpl. rewrite Hj. simpl. rewrite Hv. eexists; reflexivity.
Qed.

(** C6. When the context already holds data ([full_df] is not [None], or
    [rows_preview] is a non-empty list), [plan_for_intent] returns the
    Summarizer-only decision with [use_existing_df] and the data reason,
    whatever the intent, prompt, LLM and [json.loads]. *)
Theorem plan_for_intent_existing_data json_loads obj_len llm intent prompt context :
  (exists fd, dget context "full_df" = Some fd /\ fd <> PNone) \/
  (exists x xs, dget context "rows_preview" = Some (PList (x :: xs))) ->
  plan_for_intent json_loads obj_len llm intent prompt context = Ok (summarizer_only intent).
Proof.
  intros H. pose proof (has_data_true obj_len _ H) as Hd.
  unfold plan_for_intent, _default_plan. rewrite Hd. reflexivity.
Qed.

Lemma plan_for_intent_existing_data_witness :
  ((exists fd, dget [(PStr "full_df", PObj "DataFrame")] "full_df" = Some fd /\ fd <> PNone) \/
   (exists x xs, dget [(PStr "full_df", PObj "DataFrame")] "rows_preview" = Some (PList (x :: xs)))) /\
  plan_for_intent json_loads_sample no_len (Some generate_sample) "sql" "count rows"
    [(PStr "full_df", PObj "DataFrame")] = Ok (summarizer_only "sql").
Proof.
  assert (H : (exists fd, dget [(PStr "full_df", PObj "DataFrame")] "full_df" = Some fd /\ fd <> PNone) \/
              (exists x xs, dget [(PStr "full_df", PObj "DataFrame")] "rows_preview" = Some (PList (x :: xs))))
    by (left; exists (PObj "DataFrame"); split; [reflexivity | discriminate]).
  split; [exact H |].
  exact (plan_for_intent_existing_data json_loads_sample no_len (Some generate_sample) "sql" "count rows" _ H).
Defined.

(** C2 (amended). With no data in the context ([full_df] absent or [None],
    [rows_preview] absent or falsy), when there is no LLM, or the LLM call
    raises, or its completion is not a string, or the text extracted from
    it (stripped, fence lines removed, cut at the first ['{']) fails
    [json.loads], or the parsed object fails validation, [plan_for_intent]
    returns, without raising, the default decision for the requested
    intent: its agent names follow the deterministic chain for the intent
    and include Summarizer. *)
Theorem plan_for_intent_fallback json_loads obj_len llm intent prompt context :
  opt_none (dget context "full_df") = PNone ->
  truthy (opt_none (dget context "rows_preview")) = false ->
  (forall generate, llm = Some generate ->
   (exists e, generate (prompt_template prompt) = Err e) \/
   (exists raw, generate (prompt_template prompt) = Ok raw /\ forall s, raw <> PStr s) \/
   (exists s e, generate (prompt_template prompt) = Ok (PStr s) /\ json_loads (extract_json s) = Err e) \/
   (exists s obj e, generate (prompt_template prompt) = Ok (PStr s) /\
      json_loads (extract_json s) = Ok obj /\ _validate_decision obj = Err e)) ->
  exists agents hints,
    plan_for_intent json_loads obj_len llm intent prompt context =
      Ok (PDict [(PStr "intent", PStr intent); (PStr "agents", PList agents);
                 (PStr "hints", PDict hints); (PStr "reason", PStr "planner default mapping");
                 (PStr "cost_estimate", PDict [(PStr "llm_tokens", PInt 100); (PStr "scan_bytes_est", PInt 0)])]) /\
    map step_name agents = map PStr (chain_names intent) /\
    In (PStr "Summarizer") (map step_name agents).
Proof.
  intros H1 H2 Hllm.
  pose proof (has_data_false obj_len _ H1 H2) as Hd.
  assert (Hp : plan_for_intent json_loads obj_len llm intent prompt context =
               _default_plan obj_len intent context).
  { unfold plan_for_intent. rewrite Hd. simpl.
    destruct llm as [generate |]; [| reflexivity].
    destruct (llm_attempt_err json_loads generate intent prompt (Hllm generate eq_refl)) as [e He].
    rewrite He. reflexivity. }
  rewrite Hp. unfold _default_plan. rewrite Hd. simpl. unfold chain_names.
  destruct (String.eqb intent "analyze"); [do 2 eexists; split; [reflexivity | simpl; auto 10] |].
  destruct (String.eqb intent "sql"); [do 2 eexists; split; [reflexivity | simpl; auto 10] |].
  destruct (String.eqb intent "summarize"); do 2 eexists; split; [reflexivity | simpl; auto 10 | reflexivity | simpl; auto 10].
Qed.

Lemma plan_for_intent_fallback_witness :
  opt_none (dget [] "full_df") = PNone /\
  truthy (opt_none (dget [] "rows_preview")) = false /\
  exists agents hints,
    plan_for_intent json_loads_sample no_len (Some (fun _ => Ok (PStr "not json"))) "sql" "count rows" [] =
      Ok (PDict [(PStr "intent", PStr "sql"); (PStr "agents", PList agents);
                 (PStr "hints", PDict hints); (PStr "reason", PStr "planner default mapping");
                 (PStr "cost_estimate", PDict [(PStr "llm_tokens", PInt 100); (PStr "scan_bytes_est", PInt 0)])]) /\
    map step_name agents = map PStr (chain_names "sql") /\
    In (PStr "Summarizer") (map step_name agents).
Proof.
  split; [reflexivity |]. split; [reflexivity |].
  apply (plan_for_intent_fallback json_loads_sample no_len _ "sql" "count rows" []); try reflexivity.
  intros generate Hg. injection Hg as <-.
  right; right; left. exists "not json", "JSONDecodeError". split; reflexivity.
Defined.

(** C2, as stated: a completion that is not JSON can still yield a
    validated plan without Summarizer. [json.loads] fails on the completion
    itself, but the planner drops the text before the first ['{'] and
    parses [{"agents": []}]: the result has no agents at all. *)
Lemma plan_for_intent_fallback_counterexample :
  json_loads_sample completion_sample = Err "JSONDecodeError" /\
  plan_for_intent json_loads_sample no_len (Some generate_sample) "analyze" "analyze sales" [] =
    Ok (PDict [(PStr "intent", PStr "analyze"); (PStr "agents", PList []); (PStr "hints", PDict [])]).
Proof. split; vm_compute; reflexivity. Qed.

End PlannerProofs.

Module OrchestratorProofs.
Import Orchestrator OrchestratorSamples.

Lemma run_nodes_app w st results l1 l2 :
  run_nodes w st results (l1 ++ l2) =
  (r <- run_nodes w st results l1 ;; let '(st', results') := r in run_nodes w st' results' l2).
Proof.
  revert st results; induction l1 as [| n l1 IH]; intros st results; simpl; [reflexivity |].
  destruct (run_node w st results n) as [[st' r'] |]; simpl; auto.
Qed.

Lemma run_node_unknown w st results u kvs :
  normalize_node u = PDict kvs ->
  hashable (opt_none (dget kvs "name")) = true ->
  AGENT_IMPL (opt_none (dget kvs "name")) = None ->
  run_node w st results u = Ok (st, assoc_set results (opt_none (dget kvs "name")) unknown_agent).
Proof.
  intros Hn Hh Hi. unfold run_node. rewrite Hn. simpl.
  change (match dget kvs "name" with Some x => x | None => PNone end) with (opt_none (dget kvs "name")).
  rewrite Hh. simpl. rewrite Hi. reflexivity.
Qed.

Lemma dget_st_set st k v : dget (st_set st k v) k = Some v.
Proof.
  unfold st_set. induction st as [| [k' v'] rest IH]; simpl.
  - rewrite String.eqb_refl. reflexivity.
  - destruct k' as [| | | s | | |]; simpl; auto.
    destruct (String.eqb s k) eqn:E; simpl; rewrite E; auto.
Qed.

Lemma run_node_impl w st results kvs name impl :
  kvs <> [] -> opt_none (dget kvs "name") = name -> hashable name = true -> AGENT_IMPL name = Some impl ->
  run_node w st results (PDict kvs) =
    (out <- impl w (PDict [(PStr "params", dget_or kvs "params" (PDict []))]) st ;;
     Ok (update_state st out, assoc_set results name out)).
Proof.
  intros Hne Hn Hh Hi.
  assert (Hnorm : normalize_node (PDict kvs) = PDict kvs) by (destruct kvs; [congruence | reflexivity]).
  unfold run_node. rewrite Hnorm. unfold py_get_or. simpl py_get. cbn [bind].
  change (match dget kvs "name" with Some x => x | None => PNone end) with (opt_none (dget kvs "name")).
  rewrite Hn, Hh. cbn [bind]. rewrite Hi. reflexivity.
Qed.

(** C4 (amended). On the local path (no LangGraph result), an unknown step
    whose name is hashable records [{"error": "unknown agent"}] under its
    name, leaves the state as it was, and the loop goes on with the next
    steps: running [pre ++ u :: post] is running [pre], then [post] from
    the same state with that entry added. *)
Theorem execute_unknown_agent w decision context pre u post kvs :
  langgraph_attempt w decision context = None ->
  py_get decision "agents" = Ok (Some (PList (pre ++ u :: post))) ->
  normalize_node u = PDict kvs ->
  hashable (opt_none (dget kvs "name")) = true ->
  AGENT_IMPL (opt_none (dget kvs "name")) = None ->
  execute w decision context =
    (r <- run_nodes w (seed_state context) [] pre ;;
     let '(st1, results1) := r in
     r2 <- run_nodes w st1 (assoc_set results1 (opt_none (dget kvs "name")) unknown_agent) post ;;
     finish w decision r2).
Proof.
  intros Hlg Hag Hn Hh Hi. unfold execute. rewrite Hlg.
  unfold py_get_or. rewrite Hag. simpl.
  rewrite run_nodes_app.
  destruct (run_nodes w (seed_state context) [] pre) as [[st1 r1] |]; simpl; [| reflexivity].
  rewrite (run_node_unknown w st1 r1 u kvs Hn Hh Hi). simpl.
  destruct (run_nodes w st1 _ post); reflexivity.
Qed.

Lemma execute_unknown_agent_witness :
  execute world_stub decision_AB [] =
    (r <- run_nodes world_stub (seed_state []) [] [step_named "A"] ;;
     let '(st1, results1) := r in
     r2 <- run_nodes world_stub st1 (assoc_set results1 (PStr "B") unknown_agent) [] ;;
     finish world_stub decision_AB r2).
Proof.
  apply (execute_unknown_agent world_stub decision_AB [] [step_named "A"] (step_named "B") []
           [(PStr "name", PStr "B")]); reflexivity.
Defined.

(** The example of the spec: two unknown steps, both recorded as errors. *)
Lemma execute_two_unknown :
  execute world_stub decision_AB [] =
    Ok (PDict [(PStr "decision", decision_AB);
               (PStr "results", PDict [(PStr "A", unknown_agent); (PStr "B", unknown_agent)]);
               (PStr "summary", PList [])]).
Proof. vm_compute. reflexivity. Qed.

(** C4, as stated: an unknown step does not always let [execute] return.
    A step named by a list is not one of the six capabilities, and
    [AGENT_IMPL.get(name)] raises [TypeError] (unhashable key). *)
Lemma execute_unknown_agent_counterexample :
  AGENT_IMPL (PList [PStr "A"]) = None /\
  execute world_stub decision_list_name [] = Err TypeError.
Proof. split; vm_compute; reflexivity. Qed.

(** C9 (amended). A SQLRunner step run with no connection or no SQL text,
    or whose query runs but [fetchdf] raises while [fetchall] returns rows,
    outputs [{"rows_preview": rows, "full_df": None}]; the state's
    [full_df] becomes [None] whatever it held. *)
Theorem sqlrunner_clears_full_df w st results kvs :
  dget kvs "name" = Some (PStr "SQLRunner") ->
  (st_get st "conn" = PNone \/ truthy (st_get st "last_sql") = false \/
   exists cur e rows,
     st_get st "conn" <> PNone /\ truthy (st_get st "last_sql") = true /\
     w_execute w (st_get st "conn") (st_get st "last_sql") = Ok cur /\
     w_fetchdf w cur = Err e /\ w_fetchall w cur = Ok rows) ->
  exists rows,
    run_node w st results (PDict kvs) =
      Ok (st_set (st_set st "rows_preview" rows) "full_df" PNone,
          assoc_set results (PStr "SQLRunner") (PDict [(PStr "rows_preview", rows); (PStr "full_df", PNone)])) /\
    st_get (st_set (st_set st "rows_preview" rows) "full_df" PNone) "full_df" = PNone.
Proof.
  intros Hname Hcase.
  assert (Hout : exists rows, forall node,
            _run_sqlrunner w node st = Ok (PDict [(PStr "rows_preview", rows); (PStr "full_df", PNone)])).
  { unfold _run_sqlrunner.
    destruct Hcase as [Hc | [Hs | [cur [e [rows [Hc [Hs [Hx [Hd Hr]]]]]]]]].
    - rewrite Hc. simpl. eexists; reflexivity.
    - rewrite Hs, Bool.andb_false_r. eexists; reflexivity.
    - destruct (st_get st "conn") eqn:E; [congruence | | | | | |];
        rewrite Hs; simpl; rewrite Hx, Hd; simpl; rewrite Hr; exists rows; reflexivity. }
  destruct Hout as [rows Hout].
  exists rows. split; [| unfold st_get; rewrite dget_st_set; reflexivity].
  assert (Hne : kvs <> []) by (intros ->; discriminate).
  rewrite (run_node_impl w st results kvs (PStr "SQLRunner") _run_sqlrunner Hne);
    [| rewrite Hname; reflexivity | reflexivity | reflexivity].
  rewrite Hout. reflexivity.
Qed.

Lemma sqlrunner_clears_full_df_witness :
  exists rows,
    run_node world_stub state_with_df [] (step_named "SQLRunner") =
      Ok (st_set (st_set state_with_df "rows_preview" rows) "full_df" PNone,
          assoc_set [] (PStr "SQLRunner") (PDict [(PStr "rows_preview", rows); (PStr "full_df", PNone)])) /\
    st_get (st_set (st_set state_with_df "rows_preview" rows) "full_df" PNone) "full_df" = PNone.
Proof.
  apply (sqlrunner_clears_full_df world_stub state_with_df [] [(PStr "name", PStr "SQLRunner")]);
    [reflexivity |]. left; reflexivity.
Defined.

(** C9, as stated: when the query runs but its result cannot be fetched
    as a dataframe and [fetchall] raises too, the output is an error with
    no [full_df] key, and the dataframe in the state survives. *)
Lemma sqlrunner_clears_full_df_counterexample :
  run_node world_fetch_fails state_sql_df [] (step_named "SQLRunner") =
    Ok (state_sql_df, [(PStr "SQLRunner", PDict [(PStr "error", PStr "fetchall failed")])]) /\
  st_get state_sql_df "full_df" = PObj "DataFrame".
Proof. split; vm_compute; reflexivity. Qed.

End OrchestratorProofs.

Module AdapterProofs.
Import Orchestrator Adapter AdapterSamples.

(** C5. On the local path, a single AnalysisAgent step over a dataframe
    whose [describe()] is keyed by a non-string column label makes
    [run_decision_graph] raise: the orchestrator returns normally, but
    [_redact] of its output calls [.lower()] on the integer key outside any
    [try], so no trace is appended and no result is returned. *)
Theorem run_decision_graph_local_raises w rt t k v rest n :
  rt_sdk rt = None -> rt_shim rt = None ->
  w_is_dataframe w (PObj t) = true ->
  w_describe w (PObj t) = Ok (PDict ((PInt k, v) :: rest)) ->
  w_obj_len w (PObj t) = Ok n ->
  run_decision_graph w rt analysis_decision [(PStr "full_df", PObj t)] =
    Err "AttributeError: object has no attribute 'lower'".
Proof.
  intros Hsdk Hshim Hdf Hdesc Hlen.
  assert (Hexec : local_fn w (PDict [(PStr "name", PStr "AnalysisAgent")]) [(PStr "full_df", PObj t)] =
    Ok (PDict [(PStr "decision", PDict [(PStr "agents", PList [PDict [(PStr "name", PStr "AnalysisAgent")]])]);
               (PStr "results", PDict [(PStr "AnalysisAgent",
                  PDict [(PStr "analysis_code", PNone);
                         (PStr "artifacts", PDict [(PStr "describe", PDict ((PInt k, v) :: rest))]);
                         (PStr "metrics", PDict [(PStr "n_rows", PInt n)])])]);
               (PStr "summary", PList [])])).
  { assert (Hst : st_get (seed_state [(PStr "full_df", PObj t)]) "full_df" = PObj t) by reflexivity.
    unfold local_fn, execute, langgraph_attempt. simpl.
    unfold run_node. simpl. unfold _run_analysisagent. rewrite Hst, Hdf, Hdesc, Hlen. simpl. reflexivity. }
  unfold run_decision_graph. rewrite Hsdk, Hshim. simpl. rewrite Hexec. reflexivity.
Qed.

Lemma run_decision_graph_local_raises_witness :
  run_decision_graph world_int_columns no_runtime analysis_decision [(PStr "full_df", PObj "DataFrame")] =
    Err "AttributeError: object has no attribute 'lower'".
Proof.
  apply (run_decision_graph_local_raises world_int_columns no_runtime "DataFrame" 0%Z
           (PDict [(PStr "count", PInt 2); (PStr "mean", PStr "1.5")]) [] 2%Z); reflexivity.
Defined.

End AdapterProofs.

(** ** Further properties of the code *)

Module RedactionExtra.
Import Redaction RedactionProofs ExtraSamples.

Lemma has_secret_REDACTED : has_secret REDACTED = false.
Proof. reflexivity. Qed.

Lemma redact_entries_idem kvs kvs' :
  Forall (fun kv => forall y, _redact (snd kv) = Ok y -> _redact y = Ok y) kvs ->
  redact_entries _redact kvs = Ok kvs' -> redact_entries _redact kvs' = Ok kvs'.
Proof.
  revert kvs'; induction kvs as [| [k x] rest IH]; intros kvs' HF Hr; simpl in Hr.
  - inversion Hr; reflexivity.
  - inversion HF as [| ? ? Hx Hrest]; subst.
    destruct k; try discriminate.
    destruct (sensitive_key s) eqn:Hs.
    + destruct (redact_entries _redact rest) as [rest' |] eqn:Hre; simpl in Hr; inversion Hr; subst.
      simpl. rewrite Hs, (IH rest' Hrest eq_refl). reflexivity.
    + destruct (_redact x) as [x' |] eqn:Hxr; simpl in Hr; try discriminate.
      destruct (redact_entries _redact rest) as [rest' |] eqn:Hre; simpl in Hr; inversion Hr; subst.
      simpl. rewrite Hs, (Hx x' Hxr). simpl. rewrite (IH rest' Hrest eq_refl). reflexivity.
Qed.

Lemma redact_items_idem l l' :
  Forall (fun x => forall y, _redact x = Ok y -> _redact y = Ok y) l ->
  redact_items _redact l = Ok l' -> redact_items _redact l' = Ok l'.
Proof.
  revert l'; induction l as [| x r IH]; intros l' HF Hr; simpl in Hr.
  - inversion Hr; reflexivity.
  - inversion HF as [| ? ? Hx Hrest]; subst.
    destruct (_redact x) as [x' |] eqn:Hxr; simpl in Hr; try discriminate.
    destruct (redact_items _redact r) as [r' |] eqn:Hre; simpl in Hr; inversion Hr; subst.
    simpl. rewrite (Hx x' eq_refl). simpl. rewrite (IH r' Hrest eq_refl). reflexivity.
Qed.

(** Redacting an already redacted value changes nothing: [_redact] is idempotent. *)
Theorem redact_idempotent (v v' : pyval) :
  _redact v = Ok v' -> _redact v' = Ok v'.
Proof.
  revert v'; induction v using pyval_ind'; intros v' Hr;
    try (simpl in Hr; inversion Hr; subst; reflexivity).
  - simpl in Hr. inversion Hr; subst. unfold _redact_value.
    destruct (has_secret s) eqn:Hs; simpl; [reflexivity | rewrite Hs; reflexivity].
  - rewrite redact_list in Hr.
    destruct (redact_items _redact l) as [l' |] eqn:He; simpl in Hr; inversion Hr; subst.
    rewrite redact_list, (redact_items_idem l l' H He). reflexivity.
  - rewrite redact_dict in Hr.
    destruct (redact_entries _redact kvs) as [kvs' |] eqn:He; simpl in Hr; inversion Hr; subst.
    rewrite redact_dict, (redact_entries_idem kvs kvs' H He). reflexivity.
Qed.

Lemma redact_idempotent_witness :
  exists v', _redact redact_sample = Ok v' /\ _redact v' = Ok v'.
Proof.
  eexists. split; [vm_compute; reflexivity |].
  apply (redact_idempotent redact_sample). vm_compute. reflexivity.
Defined.

End RedactionExtra.

Module RouterExtra.
Import Router RouterSamples ExtraSamples RouterProofs.

Lemma lower_char_idem (c : ascii) : lower_char (lower_char c) = lower_char c.
Proof. destruct c as [[] [] [] [] [] [] [] []]; reflexivity. Qed.

Lemma lower_idem (s : string) : lower (lower s) = lower s.
Proof. induction s as [| c s IH]; simpl; [reflexivity | rewrite lower_char_idem, IH; reflexivity]. Qed.

(** The router's decision depends on the prompt only up to letter case. *)
Theorem detect_intent_case_insensitive (prompt : string) (mode : option string) :
  detect_intent (Some prompt) mode = detect_intent (Some (lower prompt)) mode.
Proof. unfold detect_intent. rewrite lower_idem. reflexivity. Qed.

(** Without a user mode, a prompt holding an analysis keyword as a whole word is routed to the analysis decision, whatever other keywords it holds. *)
Theorem detect_intent_analysis_first (prompt : string) (mode : option string) :
  mode = None \/ mode = Some "" ->
  (exists w, In w analyze_words /\ whole_word w (lower prompt) = true) ->
  detect_intent (Some prompt) mode = analyze_route.
Proof.
  intros Hm Hw. apply re_search_iff in Hw.
  destruct Hm as [-> | ->]; unfold detect_intent, classify; simpl; rewrite Hw; reflexivity.
Qed.

Lemma detect_intent_analysis_first_witness :
  detect_intent (Some "Summarize the top drivers of churn") None = analyze_route.
Proof.
  apply detect_intent_analysis_first; [left; reflexivity |].
  exists "drivers"; split; [simpl; tauto | vm_compute; reflexivity].
Defined.

(** Without a user mode, a prompt with no analysis and no summarize keyword is routed to the SQL decision when it holds a SQL keyword, and to the unknown decision otherwise. *)
Theorem detect_intent_no_analysis (prompt : string) (mode : option string) :
  mode = None \/ mode = Some "" ->
  (forall w, In w analyze_words -> whole_word w (lower prompt) = false) ->
  (forall w, In w summarize_words -> whole_word w (lower prompt) = false) ->
  detect_intent (Some prompt) mode =
    if existsb (fun w => whole_word w (lower prompt)) sql_words then sql_route else unknown_route.
Proof.
  intros Hm Ha Hs.
  destruct (existsb (fun w => whole_word w (lower prompt)) sql_words) eqn:E.
  - assert (Hsql : re_search sql_words (lower prompt) = true).
    { apply re_search_iff. apply existsb_exists in E. exact E. }
    destruct Hm as [-> | ->]; unfold detect_intent, classify; simpl;
      rewrite (re_search_false _ _ Ha), (re_search_false _ _ Hs), Hsql; reflexivity.
  - assert (Hsql : re_search sql_words (lower prompt) = false).
    { apply re_search_false. intros w Hin. destruct (whole_word w (lower prompt)) eqn:Ew; [| reflexivity].
      rewrite <- E. symmetry. apply existsb_exists. eauto. }
    destruct Hm as [-> | ->]; unfold detect_intent, classify; simpl;
      rewrite (re_search_false _ _ Ha), (re_search_false _ _ Hs), Hsql; reflexivity.
Qed.

Lemma detect_intent_no_analysis_witness :
  detect_intent (Some "How many orders per region") None = sql_route /\
  detect_intent (Some "Hello there") None = unknown_route.
Proof.
  split.
  - rewrite (detect_intent_no_analysis "How many orders per region" None (or_introl eq_refl)).
    + reflexivity.
    + intros w Hw; simpl in Hw.
      repeat (destruct Hw as [<- | Hw]; [vm_compute; reflexivity |]); destruct Hw.
    + intros w Hw; simpl in Hw.
      repeat (destruct Hw as [<- | Hw]; [vm_compute; reflexivity |]); destruct Hw.
  - rewrite (detect_intent_no_analysis "Hello there" None (or_introl eq_refl)).
    + reflexivity.
    + intros w Hw; simpl in Hw.
      repeat (destruct Hw as [<- | Hw]; [vm_compute; reflexivity |]); destruct Hw.
    + intros w Hw; simpl in Hw.
      repeat (destruct Hw as [<- | Hw]; [vm_compute; reflexivity |]); destruct Hw.
Defined.

End RouterExtra.

Module MappingExtra.
Import Mapping MappingSpec ExtraSamples MappingProofs.

Lemma chain_from_proj prev its : map proj (chain_from prev its) = map proj its.
Proof. revert prev; induction its as [| it r IH]; intros prev; simpl; [reflexivity | rewrite IH; reflexivity]. Qed.

Lemma chain_proj its : map proj (chain its) = map proj its.
Proof. destruct its as [| it r]; simpl; [reflexivity | rewrite chain_from_proj; reflexivity]. Qed.

Lemma fill_proj tbl its its' : mapM (fill_inputs tbl) its = Ok its' -> map proj its' = map proj its.
Proof.
  revert its'; induction its as [| it r IH]; intros its' H; simpl in H.
  - inversion H; reflexivity.
  - unfold fill_inputs at 1 in H.
    destruct (mapM (input_ref tbl) (i_depends_on it)) as [ins |]; simpl in H; [| discriminate].
    destruct (mapM (fill_inputs tbl) r) as [r' |] eqn:Hr; simpl in H; inversion H; subst.
    simpl. rewrite (IH r' eq_refl). reflexivity.
Qed.

Lemma mk_item_fields idx a aid outs it :
  mk_item idx a = Ok (aid, outs, it) ->
  py_get_or a "name" (PStr ("agent_" ++ nat_str idx)) = Ok (i_name it) /\
  py_get_or a "params" (PDict []) = Ok (i_params it) /\
  declared_outputs a = Ok (i_outputs it).
Proof.
  unfold mk_item. intros H.
  destruct (step_id idx a) as [aid' |]; simpl in H; [| discriminate].
  destruct (declared_outputs a) as [outs' |] eqn:Ho; simpl in H; [| discriminate].
  destruct (hashable aid'); simpl in H; [| discriminate].
  destruct (py_get_or a "name" _) as [nm |] eqn:Hn; simpl in H; [| discriminate].
  destruct (py_get_or a "params" _) as [pm |] eqn:Hp; simpl in H; [| discriminate].
  destruct (py_get a "depends_on") as [dop |]; simpl in H; [| discriminate].
  destruct (match dop with None | Some PNone => Ok [] | Some d => py_iter d end) as [deps |];
    simpl in H; inversion H; subst; simpl; auto.
Qed.

(** [build_run_payload] makes one item per agent, in order: the item's name is the agent's name or agent_i, its params the agent's params, and its outputs the declared outputs, never empty. *)
Theorem build_run_payload_items d agents payload :
  py_get d "agents" = Ok (Some (PList agents)) ->
  build_run_payload d = Ok payload ->
  exists its,
    payload = PDict [(PStr "name", PStr "duckagent_decision"); (PStr "items", PList (map item_py its))] /\
    length its = length agents /\
    forall i a, nth_error agents i = Some a ->
      exists it, nth_error its i = Some it /\
        py_get_or a "name" (PStr ("agent_" ++ nat_str i)) = Ok (i_name it) /\
        py_get_or a "params" (PDict []) = Ok (i_params it) /\
        declared_outputs a = Ok (i_outputs it) /\ i_outputs it <> [].
Proof.
  intros Ha Hb. rewrite (build_run_payload_agents d agents Ha) in Hb.
  destruct (collect 0 agents []) as [[its0 tbl] |] eqn:Hc; simpl in Hb; [| discriminate].
  set (its1 := if existsb _ its0 then its0 else chain its0) in Hb.
  destruct (mapM (fill_inputs tbl) its1) as [its' |] eqn:Hm; simpl in Hb; inversion Hb; subst.
  assert (Hp : map proj its' = map proj its0).
  { rewrite (fill_proj _ _ _ Hm). unfold its1. destruct (existsb _ its0); [reflexivity | apply chain_proj]. }
  destruct (collect_spec agents 0 [] its0 tbl Hc) as [Hl [Hn _]].
  exists its'; split; [reflexivity |]. split.
  - rewrite <- Hl, <- (length_map proj its'), Hp, length_map. reflexivity.
  - intros i a Hi. destruct (Hn i a Hi) as [aid [outs [it [Hmk Hit]]]].
    simpl in Hmk.
    assert (Hx : nth_error (map proj its') i = Some (proj it)) by (rewrite Hp, nth_error_map, Hit; reflexivity).
    rewrite nth_error_map in Hx.
    destruct (nth_error its' i) as [it' |] eqn:Hit'; simpl in Hx; [| discriminate].
    assert (Hpr : proj it' = proj it) by congruence.
    unfold proj in Hpr. injection Hpr as _ Hname Hparams Houts.
    destruct (mk_item_fields _ _ _ _ _ Hmk) as [H1 [H2 H3]].
    exists it'; rewrite Hname, Hparams, Houts. repeat split; auto.
    exact (declared_outputs_nonempty a _ H3).
Qed.

Lemma build_run_payload_items_witness :
  exists payload, build_run_payload decision_explicit = Ok payload /\
  exists its,
    payload = PDict [(PStr "name", PStr "duckagent_decision"); (PStr "items", PList (map item_py its))] /\
    length its = length [step_sql; step_run; step_sum] /\
    forall i a, nth_error [step_sql; step_run; step_sum] i = Some a ->
      exists it, nth_error its i = Some it /\
        py_get_or a "name" (PStr ("agent_" ++ nat_str i)) = Ok (i_name it) /\
        py_get_or a "params" (PDict []) = Ok (i_params it) /\
        declared_outputs a = Ok (i_outputs it) /\ i_outputs it <> [].
Proof.
  eexists; split; [vm_compute; reflexivity |].
  apply (build_run_payload_items decision_explicit); [reflexivity | vm_compute; reflexivity].
Defined.

(** A decision whose agents are missing, None or falsy gives a payload with no items. *)
Theorem build_run_payload_no_agents d o :
  py_get d "agents" = Ok o -> truthy (opt_none o) = false ->
  build_run_payload d = Ok (PDict [(PStr "name", PStr "duckagent_decision"); (PStr "items", PList [])]).
Proof.
  intros Ha Ht. unfold build_run_payload, py_get_or. rewrite Ha. simpl.
  destruct o as [x |]; simpl in Ht |- *; [rewrite Ht |]; reflexivity.
Qed.

Lemma build_run_payload_no_agents_witness :
  build_run_payload (PDict [(PStr "agents", PNone)]) =
    Ok (PDict [(PStr "name", PStr "duckagent_decision"); (PStr "items", PList [])]).
Proof. apply (build_run_payload_no_agents _ (Some PNone)); reflexivity. Defined.

End MappingExtra.

Module PlannerExtra.
Import Planner PlannerSamples ExtraSamples.
Lemma validate_agent_err a e : validate_agent a = Err e -> e = ValueError.
Proof.
  unfold validate_agent. destruct a; try (intros H; inversion H; reflexivity).
  destruct (negb (allowed_name _)); [intros H; inversion H; reflexivity |].
  destruct (if truthy _ then _ else _); intros H; inversion H; reflexivity.
Qed.

Lemma validate_agent_ok a n :
  validate_agent a = Ok n ->
  exists akvs s ps, a = PDict akvs /\ dget akvs "name" = Some (PStr s) /\ In s DEFAULT_AGENT_NAMES /\
    n = PDict [(PStr "name", PStr s); (PStr "params", PDict ps)] /\
    Forall (fun kv => simple_json (snd kv) = true) ps.
Proof.
  unfold validate_agent. destruct a; try discriminate.
  destruct (allowed_name (opt_none (dget kvs "name"))) eqn:Ha; simpl; [| discriminate].
  destruct (dget kvs "name") as [[] |] eqn:Hn; simpl in Ha; try discriminate.
  destruct (if truthy _ then _ else _) as [| | | | | ps |]; intros H; inversion H; subst.
  exists kvs, s, (filter (fun kv => simple_json (snd kv)) ps).
  repeat split; auto.
  - change (existsb (String.eqb s) DEFAULT_AGENT_NAMES = true) in Ha.
    apply existsb_exists in Ha as [x [Hx Hs]]. apply String.eqb_eq in Hs; subst; exact Hx.
  - apply Forall_forall. intros kv Hkv. apply filter_In in Hkv. tauto.
Qed.

Lemma mapM_validate l l' :
  mapM validate_agent l = Ok l' -> Forall2 (fun a n => validate_agent a = Ok n) l l'.
Proof.
  revert l'; induction l as [| a r IH]; intros l' H; simpl in H.
  - inversion H; constructor.
  - destruct (validate_agent a) as [n |] eqn:Ha; simpl in H; [| discriminate].
    destruct (mapM validate_agent r) as [r' |]; simpl in H; inversion H; subst.
    constructor; auto.
Qed.

Lemma mapM_validate_err l e : mapM validate_agent l = Err e -> e = ValueError.
Proof.
  induction l as [| a r IH]; simpl; [discriminate |].
  destruct (validate_agent a) as [n |] eqn:Ha; simpl.
  - destruct (mapM validate_agent r); simpl; [discriminate | intros H; inversion H; subst; auto].
  - intros H; inversion H; subst. eapply validate_agent_err; eauto.
Qed.

Lemma mapM_validate_In l a : In a l -> (forall n, validate_agent a <> Ok n) ->
  exists e, mapM validate_agent l = Err e.
Proof.
  induction l as [| x r IH]; intros Hin Hn; [destruct Hin |].
  simpl. destruct Hin as [-> | Hin].
  - destruct (validate_agent a) as [n |]; [exfalso; eapply Hn; reflexivity | simpl; eauto].
  - destruct (validate_agent x); simpl; [| eauto].
    destruct (IH Hin Hn) as [e He]; rewrite He; simpl; eauto.
Qed.

Lemma validate_decision_spec obj v :
  _validate_decision obj = Ok v ->
  exists kvs agents normalized,
    obj = PDict kvs /\ dget kvs "agents" = Some (PList agents) /\
    v = PDict [(PStr "intent", opt_none (dget kvs "intent")); (PStr "agents", PList normalized);
               (PStr "hints", dget_or kvs "hints" (PDict []))] /\
    Forall2 (fun a n => exists akvs s ps, a = PDict akvs /\ dget akvs "name" = Some (PStr s) /\
               In s DEFAULT_AGENT_NAMES /\
               n = PDict [(PStr "name", PStr s); (PStr "params", PDict ps)] /\
               Forall (fun kv => simple_json (snd kv) = true) ps) agents normalized.
Proof.
  unfold _validate_decision. destruct obj; try discriminate.
  destruct (dget kvs "agents") as [[] |] eqn:Hag; try discriminate.
  destruct (mapM validate_agent l) as [normalized |] eqn:Hm; simpl; intros H; inversion H; subst.
  exists kvs, l, normalized. repeat split; auto.
  apply mapM_validate in Hm. eapply Forall2_impl; [| exact Hm]. intros a n Hv. apply validate_agent_ok; exact Hv.
Qed.


(** [_validate_decision] raises ValueError on a non-dict decision, on a decision without an agents list, and on a decision with an agent whose name is not an allowed one. *)
Theorem validate_decision_rejects obj :
  ((forall kvs, obj <> PDict kvs) \/
   (exists kvs, obj = PDict kvs /\ forall agents, dget kvs "agents" <> Some (PList agents)) \/
   (exists kvs agents a, obj = PDict kvs /\ dget kvs "agents" = Some (PList agents) /\ In a agents /\
      forall akvs, a = PDict akvs -> allowed_name (opt_none (dget akvs "name")) = false)) ->
  _validate_decision obj = Err ValueError.
Proof.
  intros [Hn | [[kvs [-> Ha]] | [kvs [agents [a [-> [Ha [Hin Hname]]]]]]]].
  - destruct obj; try reflexivity. exfalso; eapply Hn; reflexivity.
  - simpl. destruct (dget kvs "agents") as [[] |] eqn:E; try reflexivity.
    exfalso; eapply Ha; reflexivity.
  - simpl. rewrite Ha.
    assert (Hv : forall n, validate_agent a <> Ok n).
    { intros n Hv. apply validate_agent_ok in Hv as [akvs [s [ps [Ha' [Hs [HIn _]]]]]].
      specialize (Hname akvs Ha'). rewrite Hs in Hname.
      change (existsb (String.eqb s) DEFAULT_AGENT_NAMES = false) in Hname.
      assert (existsb (String.eqb s) DEFAULT_AGENT_NAMES = true).
      { apply existsb_exists. exists s; split; [exact HIn | apply String.eqb_refl]. }
      congruence. }
    destruct (mapM_validate_In agents a Hin Hv) as [e He].
    rewrite He. simpl. rewrite (mapM_validate_err _ _ He). reflexivity.
Qed.
Lemma split_nl_nonempty s : split_nl s <> [].
Proof.
  destruct s as [| c r]; simpl; [discriminate |].
  destruct (Nat.eqb (code c) 10); [discriminate |].
  destruct (split_nl r); discriminate.
Qed.

Lemma split_nl_app a b : split_nl (a ++ String nlc b) = (split_nl a ++ split_nl b)%list.
Proof.
  induction a as [| c r IH]; [reflexivity |].
  simpl. rewrite IH.
  destruct (Nat.eqb (code c) 10); [reflexivity |].
  destruct (split_nl r) eqn:E; [exfalso; exact (split_nl_nonempty r E) | reflexivity].
Qed.

Lemma split_nl_no_nl s : find_char nlc s = None -> split_nl s = [s].
Proof.
  induction s as [| c r IH]; [reflexivity |].
  cbn [find_char split_nl]. intros H. destruct (Ascii.eqb nlc c) eqn:E; [discriminate H |].
  destruct (find_char nlc r); [discriminate H |].
  rewrite IH by reflexivity.
  assert (Hc : Nat.eqb (code c) 10 = false).
  { destruct (Nat.eqb (code c) 10) eqn:Hc; [| reflexivity].
    apply Nat.eqb_eq in Hc. unfold code in Hc.
    assert (c = nlc) by (rewrite <- (ascii_nat_embedding c), Hc; reflexivity).
    subst. rewrite Ascii.eqb_refl in E. discriminate. }
  rewrite Hc. reflexivity.
Qed.

Lemma concat_split_nl s : String.concat nl (split_nl s) = s.
Proof.
  induction s as [| c r IH]; [reflexivity |].
  simpl. destruct (Nat.eqb (code c) 10) eqn:Hc.
  - apply Nat.eqb_eq in Hc. unfold code in Hc.
    assert (c = nlc) by (rewrite <- (ascii_nat_embedding c), Hc; reflexivity). subst.
    destruct (split_nl r) eqn:E; [exfalso; exact (split_nl_nonempty r E) |].
    simpl. rewrite <- IH. reflexivity.
  - destruct (split_nl r) as [| p ps] eqn:E; [exfalso; exact (split_nl_nonempty r E) |].
    rewrite <- IH. destruct ps; reflexivity.
Qed.

Lemma append_assoc (a b c : string) : (a ++ b) ++ c = a ++ b ++ c.
Proof. induction a as [| x r IH]; simpl; [reflexivity | rewrite IH; reflexivity]. Qed.

Lemma prefix_app a b : prefix a (a ++ b) = true.
Proof.
  induction a as [| c r IH]; simpl; [destruct b; reflexivity |].
  destruct (ascii_dec c c); [exact IH | congruence].
Qed.

Lemma list_ascii_app a b : list_ascii_of_string (a ++ b) = (list_ascii_of_string a ++ list_ascii_of_string b)%list.
Proof. induction a as [| c r IH]; simpl; [reflexivity | rewrite IH; reflexivity]. Qed.

Lemma string_of_list_app l1 l2 : string_of_list_ascii (l1 ++ l2) = string_of_list_ascii l1 ++ string_of_list_ascii l2.
Proof. induction l1 as [| c r IH]; simpl; [reflexivity | rewrite IH; reflexivity]. Qed.

Lemma rev_str_app a b : rev_str (a ++ b) = rev_str b ++ rev_str a.
Proof. unfold rev_str. rewrite list_ascii_app, rev_app_distr, string_of_list_app. reflexivity. Qed.

Lemma rev_str_involutive s : rev_str (rev_str s) = s.
Proof.
  unfold rev_str. rewrite list_ascii_of_string_of_list_ascii, rev_involutive.
  apply string_of_list_ascii_of_string.
Qed.

Lemma strip_fence x : strip (fence ++ x ++ fence) = fence ++ x ++ fence.
Proof.
  unfold strip. change (lstrip (fence ++ x ++ fence)) with (fence ++ x ++ fence).
  rewrite (rev_str_app fence (x ++ fence)), (rev_str_app x fence).
  change (rev_str fence) with fence.
  change (lstrip ((fence ++ rev_str x) ++ fence)) with ((fence ++ rev_str x) ++ fence).
  rewrite rev_str_app, rev_str_app, rev_str_involutive. reflexivity.
Qed.

Lemma removelast_app_single {A} (l : list A) x : removelast (l ++ [x]) = l.
Proof. induction l as [| y r IH]; [reflexivity |]. simpl. rewrite IH. destruct r; reflexivity. Qed.

(** A JSON object inside a fenced code block, with a tag line holding no line feed, is extracted exactly. *)
Theorem extract_json_fenced tag body :
  find_char nlc tag = None ->
  extract_json (fence ++ tag ++ nl ++ String "{" body ++ nl ++ fence) = String "{" body.
Proof.
  intros Ht. unfold extract_json.
  assert (Hx : fence ++ tag ++ nl ++ String "{" body ++ nl ++ fence
               = fence ++ (tag ++ nl ++ String "{" body ++ nl) ++ fence).
  { rewrite <- !append_assoc. reflexivity. }
  rewrite Hx, strip_fence, <- Hx.
  rewrite prefix_app.
  assert (He : endswith fence (fence ++ tag ++ nl ++ String "{" body ++ nl ++ fence) = true).
  { unfold endswith. rewrite Hx, rev_str_app, rev_str_app, append_assoc. apply prefix_app. }
  rewrite He. simpl andb. cbv iota.
  assert (Hs : split_nl (fence ++ tag ++ nl ++ String "{" body ++ nl ++ fence)
               = ([(fence ++ tag)%string] ++ split_nl (String "{" body) ++ [fence])%list).
  { change (fence ++ tag ++ nl ++ String "{" body ++ nl ++ fence)
      with (fence ++ tag ++ String nlc (String "{" body ++ String nlc fence)).
    rewrite <- append_assoc, split_nl_app, split_nl_app.
    rewrite (split_nl_no_nl (fence ++ tag)); [| simpl; rewrite Ht; reflexivity].
    reflexivity. }
  rewrite Hs. cbn [tl List.app]. rewrite removelast_app_single, concat_split_nl. reflexivity.
Qed.

Lemma extract_json_fenced_witness :
  extract_json ("```json" ++ nl ++ "{}" ++ nl ++ "```") = "{}".
Proof. exact (extract_json_fenced "json" "}" eq_refl). Defined.

Ltac allowed_tail :=
  eexists _, _; split; [reflexivity | split; [reflexivity |]];
  repeat (constructor; [eexists _, _; split; [reflexivity | simpl; tauto] |]); constructor.

Lemma default_plan_allowed obj_len intent context v :
  _default_plan obj_len intent context = Ok v ->
  exists kvs agents, v = PDict kvs /\ dget kvs "agents" = Some (PList agents) /\
    Forall (fun n => exists s ps, n = PDict [(PStr "name", PStr s); (PStr "params", PDict ps)] /\
                                  In s DEFAULT_AGENT_NAMES) agents.
Proof.
  unfold _default_plan. intros H.
  destruct (has_data obj_len context) as [[] |]; cbn [bind] in H; [| | discriminate].
  - inversion H; subst. allowed_tail.
  - repeat match type of H with context [if String.eqb ?a ?b then _ else _] =>
      destruct (String.eqb a b) end;
    inversion H; subst; allowed_tail.
Qed.

Lemma Forall2_in_r {A B} (R : A -> B -> Prop) l l' y :
  Forall2 R l l' -> In y l' -> exists x, In x l /\ R x y.
Proof.
  intros HF; induction HF as [| x y' l l' Hxy HF IH]; intros Hin; [destruct Hin |].
  destruct Hin as [-> | Hin]; [exists x; split; [left |]; auto |].
  destruct (IH Hin) as [x' [Hx' Hr]]; exists x'; split; [right |]; auto.
Qed.

(** Every plan [plan_for_intent] returns is a dict with an agents list, and each agent is a name among the allowed agent names with a params dict. *)
Theorem plan_for_intent_allowed_agents json_loads obj_len llm intent prompt context v :
  plan_for_intent json_loads obj_len llm intent prompt context = Ok v ->
  exists kvs agents, v = PDict kvs /\ dget kvs "agents" = Some (PList agents) /\
    Forall (fun n => exists s ps, n = PDict [(PStr "name", PStr s); (PStr "params", PDict ps)] /\
                                  In s DEFAULT_AGENT_NAMES) agents.
Proof.
  unfold plan_for_intent.
  destruct (has_data obj_len context) as [hd |]; simpl; [| discriminate].
  destruct hd; [apply default_plan_allowed |].
  destruct llm as [generate |]; [| apply default_plan_allowed].
  destruct (llm_attempt json_loads generate intent prompt) as [v' |] eqn:Hl; [| apply default_plan_allowed].
  intros H; inversion H; subst. unfold llm_attempt in Hl.
  destruct (generate (prompt_template prompt)) as [raw |]; simpl in Hl; [| discriminate].
  destruct (match raw with PStr s => Ok (extract_json s) | _ => Err AttributeError end) as [text |];
    simpl in Hl; [| discriminate].
  destruct (json_loads text) as [obj |]; simpl in Hl; [| discriminate].
  destruct (_validate_decision obj) as [validated |] eqn:Hv; simpl in Hl; [| discriminate].
  apply validate_decision_spec in Hv as [kvs [agents [normalized [_ [_ [-> HF]]]]]].
  inversion Hl; subst.
  eexists _, normalized; split; [reflexivity | split; [reflexivity |]].
  apply Forall_forall. intros n Hn.
  destruct (Forall2_in_r _ _ _ _ HF Hn) as [a [_ [akvs [s [ps [_ [_ [HIn Hn']]]]]]]].
  exists s, ps; split; [apply Hn' | exact HIn].
Qed.


Lemma validate_decision_rejects_witness :
  _validate_decision validate_bad_name = Err ValueError.
Proof.
  apply validate_decision_rejects. right; right.
  exists [(PStr "agents", PList [PDict [(PStr "name", PStr "DropTables")]])],
         [PDict [(PStr "name", PStr "DropTables")]], (PDict [(PStr "name", PStr "DropTables")]).
  split; [reflexivity | split; [reflexivity | split; [left; reflexivity |]]].
  intros akvs H. injection H as <-. reflexivity.
Defined.

Lemma plan_for_intent_allowed_agents_witness :
  exists v, plan_for_intent json_loads_sample no_len None "sql" "orders by region" [] = Ok v /\
  exists kvs agents, v = PDict kvs /\ dget kvs "agents" = Some (PList agents) /\
    Forall (fun n => exists s ps, n = PDict [(PStr "name", PStr s); (PStr "params", PDict ps)] /\
                                  In s DEFAULT_AGENT_NAMES) agents.
Proof.
  eexists. split; [vm_compute; reflexivity |].
  apply (plan_for_intent_allowed_agents json_loads_sample no_len None "sql" "orders by region" []).
  vm_compute. reflexivity.
Defined.

End PlannerExtra.

Module OrchestratorExtra.
Import Orchestrator OrchestratorSamples ExtraSamples OrchestratorProofs.

Lemma dget_st_set_other st k k' v :
  k <> k' -> dget (st_set st k v) k' = dget st k'.
Proof.
  intros Hne. unfold st_set. induction st as [| [k0 v0] rest IH]; simpl.
  - destruct (String.eqb k k') eqn:E; [apply String.eqb_eq in E; congruence | reflexivity].
  - destruct k0 as [| | | s | | |]; simpl; auto.
    destruct (String.eqb s k) eqn:E; simpl.
    + apply String.eqb_eq in E; subst s.
      destruct (String.eqb k k') eqn:E'; [apply String.eqb_eq in E'; congruence | reflexivity].
    + destruct (String.eqb s k'); auto.
Qed.

Lemma update_state_frame st out k :
  ~ In k written_keys -> dget (update_state st out) k = dget st k.
Proof.
  intros Hk. unfold written_keys in Hk; simpl in Hk.
  destruct out; simpl; auto.
  repeat match goal with
         | |- context [match dget ?l ?s with Some _ => _ | None => _ end] =>
             destruct (dget l s)
         end;
  repeat (rewrite dget_st_set_other by (intros E; apply Hk; subst; intuition)); reflexivity.
Qed.

Lemma run_node_cases w st results raw st' results' :
  run_node w st results raw = Ok (st', results') ->
  exists name,
    (AGENT_IMPL name = None /\ st' = st /\ results' = assoc_set results name unknown_agent) \/
    (exists impl params out, AGENT_IMPL name = Some impl /\
       impl w (PDict [(PStr "params", params)]) st = Ok out /\
       st' = update_state st out /\ results' = assoc_set results name out).
Proof.
  unfold run_node. intros H.
  destruct (py_get_or (normalize_node raw) "name" PNone) as [name |]; simpl in H; [| discriminate H].
  destruct (py_get_or (normalize_node raw) "params" (PDict [])) as [params |]; simpl in H; [| discriminate H].
  destruct (hashable name); simpl in H; [| discriminate H].
  exists name. destruct (AGENT_IMPL name) as [impl |].
  - right. destruct (impl w (PDict [(PStr "params", params)]) st) as [out |] eqn:E; simpl in H; [| discriminate H].
    injection H as <- <-. exists impl, params, out. auto.
  - left. injection H as <- <-. auto.
Qed.

Lemma run_nodes_dget_frame w st results nodes st' results' k :
  run_nodes w st results nodes = Ok (st', results') ->
  ~ In k written_keys ->
  dget st' k = dget st k.
Proof.
  intros H Hk. revert st results H. induction nodes as [| n rest IH]; intros st results H; simpl in H.
  - injection H as <- <-. reflexivity.
  - destruct (run_node w st results n) as [[st1 r1] |] eqn:E; simpl in H; [| discriminate H].
    rewrite (IH _ _ H).
    destruct (run_node_cases _ _ _ _ _ _ E) as [name [[_ [-> _]] | [impl [params [out [_ [_ [-> _]]]]]]]];
      [reflexivity | apply update_state_frame; exact Hk].
Qed.

(** The loop of [execute] writes only last_sql, rows_preview, full_df and plan_text: every other state key keeps its value. *)
Theorem run_nodes_frame w st results nodes st' results' k :
  run_nodes w st results nodes = Ok (st', results') ->
  ~ In k written_keys ->
  dget st' k = dget st k.
Proof. exact (run_nodes_dget_frame w st results nodes st' results' k). Qed.

Lemma lower_app a b : lower (a ++ b) = (lower a ++ lower b)%string.
Proof. induction a as [| c a IH]; simpl; [reflexivity | rewrite IH; reflexivity]. Qed.

Lemma contains_app_r x a b : contains x b = true -> contains x (a ++ b) = true.
Proof.
  intros H. induction a as [| c a IH]; simpl; [exact H |].
  rewrite IH. apply orb_true_r.
Qed.

Lemma contains_limit_tail y : contains "limit" (lower (" LIMIT " ++ y)) = true.
Proof. rewrite lower_app. reflexivity. Qed.

Lemma contains_limit_sql t l : contains "limit" (lower ("SELECT * FROM " ++ t ++ " LIMIT " ++ l)) = true.
Proof. rewrite lower_app. apply contains_app_r. rewrite lower_app. apply contains_app_r. apply contains_limit_tail. Qed.

(** Every SQL the SQL generator returns contains the word limit (in any case). *)
Theorem sqlgenerator_sql_has_limit w node st o :
  _run_sqlgenerator w node st = Ok o ->
  exists s, o = PDict [(PStr "sql", PStr s)] /\ contains "limit" (lower s) = true.
Proof.
  unfold _run_sqlgenerator. intros H.
  destruct (py_get_or node "params" (PDict [])) as [params |]; cbn [bind] in H; [| discriminate H].
  destruct (py_get_or params "max_rows" (PInt 10)) as [limit |]; cbn [bind] in H; [| discriminate H].
  match type of H with
  | context [match ?m with Some s => Ok (PDict [(PStr "sql", PStr s)]) | None => _ end] =>
      destruct m as [s |] eqn:Hm
  end.
  - injection H as <-. exists s. split; [reflexivity |].
    destruct (truthy (st_get st "llm")); [| discriminate Hm].
    match type of Hm with
    | context [match ?r with Ok s => Some s | Err _ => None end] => destruct r as [s' |] eqn:Hr
    end; [| discriminate Hm].
    injection Hm as <-.
    destruct (w_generate w (st_get st "llm") _ 512) as [t |]; cbn [bind] in Hr; [| discriminate Hr].
    destruct t; try discriminate Hr. injection Hr as <-.
    destruct (contains "limit" (lower s)) eqn:Hc; [exact Hc |].
    rewrite lower_app. apply contains_app_r. apply contains_limit_tail.
  - injection H as <-. eexists. split; [reflexivity |].
    exact (contains_limit_sql _ _).
Qed.

Lemma sqlgenerator_no_llm_eq w node st params limit :
  truthy (st_get st "llm") = false ->
  is_none (st_get st "conn") = true ->
  py_get_or node "params" (PDict []) = Ok params ->
  py_get_or params "max_rows" (PInt 10) = Ok limit ->
  _run_sqlgenerator w node st =
    Ok (PDict [(PStr "sql", PStr ("SELECT * FROM "
         ++ fmt w (if truthy (st_get st "full_df_table_name") then st_get st "full_df_table_name"
                   else PStr "sample_table")
         ++ " LIMIT " ++ fmt w limit))]).
Proof.
  intros Hllm Hconn Hp Hl. unfold _run_sqlgenerator. rewrite Hp. cbn [bind]. rewrite Hl. cbn [bind].
  rewrite Hllm. destruct (truthy (st_get st "full_df_table_name")) eqn:Ht.
  - rewrite Ht. reflexivity.
  - rewrite Hconn, Ht. reflexivity.
Qed.

(** Without an LLM and without a connection, the SQL generator returns SELECT * FROM the registered table name, or sample_table, with LIMIT max_rows. *)
Theorem sqlgenerator_no_llm w node st params limit :
  truthy (st_get st "llm") = false ->
  is_none (st_get st "conn") = true ->
  py_get_or node "params" (PDict []) = Ok params ->
  py_get_or params "max_rows" (PInt 10) = Ok limit ->
  _run_sqlgenerator w node st =
    Ok (PDict [(PStr "sql", PStr ("SELECT * FROM "
         ++ fmt w (if truthy (st_get st "full_df_table_name") then st_get st "full_df_table_name"
                   else PStr "sample_table")
         ++ " LIMIT " ++ fmt w limit))]).
Proof. exact (sqlgenerator_no_llm_eq w node st params limit). Qed.

Lemma seed_state_get ctx :
  st_get (seed_state ctx) "conn" = st_get ctx "conn" /\
  st_get (seed_state ctx) "prompt" = st_get ctx "prompt" /\
  st_get (seed_state ctx) "llm" = st_get ctx "llm" /\
  st_get (seed_state ctx) "full_df_table_name" = PNone.
Proof. repeat split. Qed.

Lemma st_get_frame w st results nodes st' results' k :
  run_nodes w st results nodes = Ok (st', results') ->
  ~ In k written_keys -> st_get st' k = st_get st k.
Proof. intros H Hk. unfold st_get. rewrite (run_nodes_dget_frame _ _ _ _ _ _ _ H Hk). reflexivity. Qed.

(** In [execute] without an LLM and without a connection, the SQL generator always targets sample_table, since the seeded state never holds full_df_table_name. *)
Theorem execute_sqlgenerator_sample_table w ctx pre st results params limit :
  run_nodes w (seed_state ctx) [] pre = Ok (st, results) ->
  truthy (st_get ctx "llm") = false ->
  is_none (st_get ctx "conn") = true ->
  py_get_or params "max_rows" (PInt 10) = Ok limit ->
  _run_sqlgenerator w (PDict [(PStr "params", params)]) st =
    Ok (PDict [(PStr "sql", PStr ("SELECT * FROM sample_table LIMIT " ++ fmt w limit))]).
Proof.
  intros H Hllm Hconn Hl.
  destruct (seed_state_get ctx) as [Hc [_ [Hm Ht]]].
  assert (Hnk : forall k, In k ["conn"; "llm"; "full_df_table_name"] -> ~ In k written_keys)
    by (intros k Hk Hw; simpl in Hk, Hw; intuition congruence).
  assert (Et : st_get st "full_df_table_name" = PNone)
    by (rewrite (st_get_frame _ _ _ _ _ _ _ H (Hnk "full_df_table_name" ltac:(simpl; auto))); exact Ht).
  assert (Em : truthy (st_get st "llm") = false)
    by (rewrite (st_get_frame _ _ _ _ _ _ _ H (Hnk "llm" ltac:(simpl; auto))), Hm; exact Hllm).
  assert (Ec : is_none (st_get st "conn") = true)
    by (rewrite (st_get_frame _ _ _ _ _ _ _ H (Hnk "conn" ltac:(simpl; auto))), Hc; exact Hconn).
  rewrite (sqlgenerator_no_llm_eq w (PDict [(PStr "params", params)]) st params limit Em Ec eq_refl Hl), Et. reflexivity.
Qed.

Lemma summarizer_shape w node st o :
  _run_summarizer w node st = Ok o -> summary_first o.
Proof.
  unfold _run_summarizer, summary_first. intros H. unfold bind in H.
  repeat (match goal with
          | Hx : context [match ?x with Some _ => _ | None => _ end] |- _ => destruct x eqn:?
          | Hx : context [match ?x with Ok _ => _ | Err _ => _ end] |- _ => destruct x eqn:?
          | Hx : context [if ?x then _ else _] |- _ => destruct x eqn:?
          | Hx : context [let '(_, _) := ?x in _] |- _ => destruct x eqn:?
          end; try discriminate);
  repeat match goal with
         | Hx : Some _ = Some _ |- _ => injection Hx as <-
         | Hx : Ok _ = Ok _ |- _ => injection Hx as <-
         end; eauto.
Qed.

Lemma py_key_eqb_str name s : py_key_eqb name (PStr s) = true -> name = PStr s.
Proof. destruct name; simpl; try discriminate. intros E. apply String.eqb_eq in E. subst. reflexivity. Qed.

Lemma run_nodes_summarizer_ok w st results nodes st' results' :
  run_nodes w st results nodes = Ok (st', results') ->
  summarizer_ok results -> summarizer_ok results'.
Proof.
  revert st results. induction nodes as [| n rest IH]; intros st results H Hok; simpl in H.
  - injection H as <- <-. exact Hok.
  - destruct (run_node w st results n) as [[st1 r1] |] eqn:E; cbn [bind] in H; [| discriminate H].
    apply (IH _ _ H). clear H IH.
    destruct (run_node_cases _ _ _ _ _ _ E) as [name [[Hi [_ ->]] | [impl [params [out [Hi [Ho [_ ->]]]]]]]];
      intros o Hg; rewrite MappingProofs.assoc_get_set in Hg;
      destruct (py_key_eqb name (PStr "Summarizer")) eqn:Hk; auto;
      apply py_key_eqb_str in Hk; subst name.
    + discriminate Hi.
    + injection Hi as <-. injection Hg as <-. exact (summarizer_shape _ _ _ _ Ho).
Qed.

(** A local run of [execute] returns the decision, the per-agent results and the first five preview rows, plus the Summarizer's summary as summary_text when a Summarizer ran. *)
Theorem execute_local_result w d ctx v :
  langgraph_attempt w d ctx = None ->
  execute w d ctx = Ok v ->
  exists agents nodes st results summary,
    py_get_or d "agents" (PList []) = Ok agents /\ py_iter agents = Ok nodes /\
    run_nodes w (seed_state ctx) [] nodes = Ok (st, results) /\
    slice_to w (dget_or st "rows_preview" (PList [])) 5 = Ok summary /\
    let top := [(PStr "decision", d); (PStr "results", PDict results); (PStr "summary", summary)] in
    (assoc_get results (PStr "Summarizer") = None /\ v = PDict top \/
     exists s rest, assoc_get results (PStr "Summarizer") = Some (PDict ((PStr "summary", s) :: rest)) /\
                    v = PDict (top ++ [(PStr "summary_text", s)])%list).
Proof.
  intros Hlg H. unfold execute in H. rewrite Hlg in H.
  destruct (py_get_or d "agents" (PList [])) as [agents |] eqn:Ha; cbn [bind] in H; [| discriminate H].
  destruct (py_iter agents) as [nodes |] eqn:Hn; cbn [bind] in H; [| discriminate H].
  destruct (run_nodes w (seed_state ctx) [] nodes) as [[st results] |] eqn:Hr; cbn [bind] in H; [| discriminate H].
  unfold finish in H.
  destruct (slice_to w (dget_or st "rows_preview" (PList [])) 5) as [summary |] eqn:Hs; cbn [bind] in H; [| discriminate H].
  exists agents, nodes, st, results, summary. do 4 (split; [reflexivity || assumption |]).
  assert (Hok : summarizer_ok results)
    by (apply (run_nodes_summarizer_ok _ _ _ _ _ _ Hr); intros o Ho; discriminate Ho).
  destruct (assoc_get results (PStr "Summarizer")) as [o |] eqn:Hg.
  - right. destruct (Hok o Hg) as [s [rest ->]]. exists s, rest. split; [reflexivity |].
    cbn in H. injection H as <-. reflexivity.
  - left. split; [reflexivity | injection H as <-; reflexivity].
Qed.

(** Without a DataFrame and without an LLM, the summarizer returns the no-data message for an empty preview and otherwise a text with the plan, the SQL and the preview row count, with llm_used false. *)
Theorem summarizer_without_df_llm w node st l :
  (is_none (st_get st "full_df") = true \/ w_is_dataframe w (st_get st "full_df") = false) ->
  truthy (st_get st "llm") = false ->
  dget_or st "rows_preview" (PList []) = PList l ->
  _run_summarizer w node st =
    Ok (PDict [(PStr "summary", PStr (match l with
                 | [] => no_data_message
                 | _ => "Plan: " ++ fmt w (dget_or st "plan_text" (PStr "(no plan)")) ++ Planner.nl
                        ++ "SQL: " ++ fmt w (dget_or st "last_sql" (PStr "(no sql)")) ++ Planner.nl
                        ++ "Rows preview count: " ++ fmt w (PInt (Z.of_nat (length l)))
                 end));
               (PStr "llm_used", PBool false)]).
Proof.
  intros Hdf Hllm Hrows. unfold _run_summarizer. rewrite Hllm, Hrows.
  assert (Hfd : forall (x : option pyval),
             (if is_none (st_get st "full_df") then None
              else if negb (w_is_dataframe w (st_get st "full_df")) then None else x) = None)
    by (intros x; destruct Hdf as [-> | ->]; [reflexivity | destruct (is_none _); reflexivity]).
  rewrite Hfd. cbn [bind]. destruct l; reflexivity.
Qed.

(** A local [execute] of a decision without agents, or with an empty agents list, returns empty results and an empty summary. *)
Theorem execute_without_agents w d ctx :
  langgraph_attempt w d ctx = None ->
  (py_get d "agents" = Ok None \/ py_get d "agents" = Ok (Some (PList []))) ->
  execute w d ctx = Ok (PDict [(PStr "decision", d); (PStr "results", PDict []); (PStr "summary", PList [])]).
Proof.
  intros Hlg Ha. unfold execute, py_get_or. rewrite Hlg.
  destruct Ha as [Ha | Ha]; rewrite Ha; reflexivity.
Qed.

(** A local [execute] of a decision whose agents entry is None raises TypeError. *)
Theorem execute_agents_none w d ctx :
  langgraph_attempt w d ctx = None ->
  py_get d "agents" = Ok (Some PNone) ->
  execute w d ctx = Err TypeError.
Proof. intros Hlg Ha. unfold execute, py_get_or. rewrite Hlg, Ha. reflexivity. Qed.

Lemma run_nodes_frame_witness :
  exists st' results',
    run_nodes world_stub (seed_state ctx_plain) [] [step_named "SQLGenerator"; step_named "SQLRunner"]
      = Ok (st', results') /\
    dget st' "prompt" = dget (seed_state ctx_plain) "prompt".
Proof.
  do 2 eexists. split; [vm_compute; reflexivity |].
  eapply (run_nodes_frame world_stub (seed_state ctx_plain) [] [step_named "SQLGenerator"; step_named "SQLRunner"] _ _ "prompt"); [vm_compute; reflexivity |].
  simpl. intuition discriminate.
Defined.

Lemma sqlgenerator_sql_has_limit_witness :
  exists o, _run_sqlgenerator world_stub (PDict [(PStr "params", PDict [])]) (seed_state ctx_plain) = Ok o /\
  exists s, o = PDict [(PStr "sql", PStr s)] /\ contains "limit" (lower s) = true.
Proof.
  eexists. split; [vm_compute; reflexivity |].
  apply (sqlgenerator_sql_has_limit world_stub (PDict [(PStr "params", PDict [])]) (seed_state ctx_plain)).
  vm_compute; reflexivity.
Defined.

Lemma sqlgenerator_no_llm_witness :
  _run_sqlgenerator world_stub (PDict [(PStr "params", PDict [(PStr "max_rows", PStr "5")])])
      [(PStr "full_df_table_name", PStr "sales")] =
    Ok (PDict [(PStr "sql", PStr "SELECT * FROM sales LIMIT 5")]).
Proof.
  rewrite (sqlgenerator_no_llm world_stub _ _ (PDict [(PStr "max_rows", PStr "5")]) (PStr "5"));
    reflexivity.
Defined.

Lemma execute_sqlgenerator_sample_table_witness :
  exists st results,
    run_nodes world_stub (seed_state ctx_plain) [] [step_named "Planner"; step_named "SQLRunner"] = Ok (st, results) /\
    _run_sqlgenerator world_stub (PDict [(PStr "params", PDict [(PStr "max_rows", PStr "3")])]) st =
      Ok (PDict [(PStr "sql", PStr "SELECT * FROM sample_table LIMIT 3")]).
Proof.
  do 2 eexists. split; [vm_compute; reflexivity |].
  eapply (execute_sqlgenerator_sample_table world_stub ctx_plain [step_named "Planner"; step_named "SQLRunner"]
           _ _ (PDict [(PStr "max_rows", PStr "3")]) (PStr "3")); [vm_compute; reflexivity | reflexivity ..].
Defined.

Lemma execute_local_result_witness :
  exists v, execute world_stub decision_sql_chain ctx_plain = Ok v /\
  exists agents nodes st results summary,
    py_get_or decision_sql_chain "agents" (PList []) = Ok agents /\ py_iter agents = Ok nodes /\
    run_nodes world_stub (seed_state ctx_plain) [] nodes = Ok (st, results) /\
    slice_to world_stub (dget_or st "rows_preview" (PList [])) 5 = Ok summary /\
    let top := [(PStr "decision", decision_sql_chain); (PStr "results", PDict results); (PStr "summary", summary)] in
    (assoc_get results (PStr "Summarizer") = None /\ v = PDict top \/
     exists s rest, assoc_get results (PStr "Summarizer") = Some (PDict ((PStr "summary", s) :: rest)) /\
                    v = PDict (top ++ [(PStr "summary_text", s)])%list).
Proof.
  eexists. split; [vm_compute; reflexivity |].
  apply (execute_local_result world_stub decision_sql_chain ctx_plain); [reflexivity | vm_compute; reflexivity].
Defined.

Lemma summarizer_without_df_llm_witness :
  _run_summarizer world_stub (PDict [(PStr "params", PDict [])]) (seed_state ctx_plain) =
    Ok (PDict [(PStr "summary", PStr no_data_message); (PStr "llm_used", PBool false)]).
Proof. rewrite (summarizer_without_df_llm world_stub _ _ []); [reflexivity | left; reflexivity | reflexivity ..]. Defined.

Lemma execute_without_agents_witness :
  execute world_stub (PDict [(PStr "agents", PList [])]) ctx_plain =
    Ok (PDict [(PStr "decision", PDict [(PStr "agents", PList [])]); (PStr "results", PDict []);
               (PStr "summary", PList [])]).
Proof. apply execute_without_agents; [reflexivity | right; reflexivity]. Defined.

Lemma execute_agents_none_witness :
  execute world_stub (PDict [(PStr "agents", PNone)]) ctx_plain = Err TypeError.
Proof. apply execute_agents_none; reflexivity. Defined.

End OrchestratorExtra.

Module AdapterExtra.
Import Orchestrator Adapter OrchestratorSamples ExtraSamples.








(** A decision with falsy agents gives a graph with no nodes and no edges that keeps the decision's intent. *)
Theorem build_runtime_graph_falsy_agents w d agents intent :
  py_get_or d "agents" (PList []) = Ok agents ->
  truthy agents = false ->
  py_get_or d "intent" PNone = Ok intent ->
  build_runtime_graph w d =
    Ok (PDict [(PStr "nodes", PList []); (PStr "edges", PList []);
               (PStr "metadata", PDict [(PStr "decision", PDict [(PStr "intent", intent)])])], []).
Proof.
  intros Ha Ht Hi. unfold build_runtime_graph. rewrite Ha. cbn [bind]. rewrite Ht, Hi. reflexivity.
Qed.

Lemma run_local_gen w st rns tr0 res0 traces results :
  run_local w st rns tr0 res0 = Ok (traces, results) ->
  exists new, traces = (tr0 ++ new)%list /\ length new <= length rns /\
    (forall i t, nth_error new i = Some t -> exists n, nth_error rns i = Some n /\
       trace_field t "id" = Some (PStr (rn_id n)) /\
       trace_field t "status" = Some (PStr (status_of (local_fn w (rn_agent n) st)))) /\
    (forall i n, S i < length new -> nth_error rns i = Some n ->
       status_of (local_fn w (rn_agent n) st) = "success") /\
    (length new < length rns -> exists n, nth_error rns (length new - 1) = Some n /\
       status_of (local_fn w (rn_agent n) st) = "error") /\
    (new = [] -> rns = []).
Proof.
  revert tr0 res0. induction rns as [| n rest IH]; intros tr0 res0 H; cbn [run_local] in H.
  - injection H as <- <-. exists []. rewrite app_nil_r. simpl.
    split; [reflexivity |]. split; [simpl; lia |]. split; [intros [|i] t Ht; discriminate Ht |].
    split; [intros i n Hi; simpl in Hi; lia |]. split; [intros Hl; simpl in Hl; lia | reflexivity].
  - destruct (local_fn w (rn_agent n) st) as [o | e] eqn:Hf;
    (match type of H with context [Redaction._redact (PDict ((PStr "state", _) :: _))] => idtac end);
    (match type of H with context [bind (Redaction._redact ?x) _] =>
       destruct (Redaction._redact x) as [input |]; cbn [bind] in H; [| discriminate H] end);
    (match type of H with context [bind (Redaction._redact ?x) _] =>
       destruct (Redaction._redact x) as [output |]; cbn [bind] in H; [| discriminate H] end);
    cbn [String.eqb Ascii.eqb Bool.eqb] in H.
    + destruct (IH _ _ H) as [new [-> [Hlen [Hnth [Hsucc [Hlast Hne]]]]]].
      eexists. rewrite <- app_assoc. split; [reflexivity |].
      split; [simpl; lia |]. split; [| split; [| split]].
      * intros [| i] t Ht; simpl in Ht.
        -- injection Ht as <-. exists n. simpl. rewrite Hf. auto.
        -- exact (Hnth i t Ht).
      * intros [| i] n' Hi Hn; simpl in Hn.
        -- injection Hn as <-. rewrite Hf. reflexivity.
        -- apply (Hsucc i); [simpl in Hi; lia | exact Hn].
      * intros Hl. simpl in Hl. destruct new as [| t new'].
        -- rewrite (Hne eq_refl) in Hl. simpl in Hl. lia.
        -- destruct (Hlast ltac:(simpl in *; lia)) as [n' [Hn' Hs]]. exists n'. split; [| exact Hs].
           simpl in Hn' |- *. rewrite Nat.sub_0_r in Hn'. exact Hn'.
      * intros Habs. discriminate Habs.
    + injection H as <- <-. eexists. split; [reflexivity |].
      split; [simpl; lia |]. split; [| split; [| split]].
      * intros [| i] t Ht; simpl in Ht; [| destruct i; discriminate Ht].
        injection Ht as <-. exists n. simpl. rewrite Hf. auto.
      * intros i n' Hi. simpl in Hi. lia.
      * intros _. exists n. simpl. rewrite Hf. auto.
      * intros Habs. discriminate Habs.
Qed.

(** The local loop of [run_decision_graph] records one trace per node run, in order, each on the same state; it stops after the first failing node, and only the last trace can be an error. *)
Theorem run_local_traces w st rns traces results :
  run_local w st rns [] [] = Ok (traces, results) ->
  length traces <= length rns /\
  (forall i t, nth_error traces i = Some t -> exists n, nth_error rns i = Some n /\
     trace_field t "id" = Some (PStr (rn_id n)) /\
     trace_field t "status" = Some (PStr (status_of (local_fn w (rn_agent n) st)))) /\
  (forall i n, S i < length traces -> nth_error rns i = Some n ->
     status_of (local_fn w (rn_agent n) st) = "success") /\
  (length traces < length rns -> exists n, nth_error rns (length traces - 1) = Some n /\
     status_of (local_fn w (rn_agent n) st) = "error").
Proof. intros H. destruct (run_local_gen _ _ _ _ _ _ _ H) as [new [-> [H1 [H2 [H3 [H4 _]]]]]]. auto. Qed.


Lemma build_runtime_graph_falsy_agents_witness :
  build_runtime_graph world_stub (PDict [(PStr "agents", PNone)]) =
    Ok (PDict [(PStr "nodes", PList []); (PStr "edges", PList []);
               (PStr "metadata", PDict [(PStr "decision", PDict [(PStr "intent", PNone)])])], []).
Proof. apply (build_runtime_graph_falsy_agents world_stub _ PNone PNone); reflexivity. Defined.

Lemma run_local_traces_witness :
  exists g rns, build_runtime_graph world_stub decision_bad_middle = Ok (g, rns) /\
  exists traces results, run_local world_stub ctx_plain rns [] [] = Ok (traces, results) /\
    length traces = 2 /\
    exists n, nth_error rns (length traces - 1) = Some n /\
      status_of (local_fn world_stub (rn_agent n) ctx_plain) = "error".
Proof.
  do 2 eexists. split; [vm_compute; reflexivity |].
  do 2 eexists. split; [vm_compute; reflexivity |]. split; [reflexivity |].
  match goal with |- exists n, nth_error ?rns _ = _ /\ _ =>
    apply (proj2 (proj2 (proj2 (run_local_traces world_stub ctx_plain rns _ _ ltac:(vm_compute; reflexivity)))))
  end.
  vm_compute. lia.
Defined.

End AdapterExtra.

Module AgentRunExtra.
Import Orchestrator Adapter Planner AgentRun OrchestratorSamples AdapterSamples ExtraSamples.

Lemma default_plan_keys obj_len intent context v :
  _default_plan obj_len intent context = Ok v ->
  exists kvs l, v = PDict kvs /\ dget kvs "agents" = Some (PList l) /\ dget kvs "confidence" = None.
Proof.
  unfold _default_plan. intros H.
  destruct (has_data obj_len context) as [[] |]; cbn [bind] in H; [| | discriminate H].
  - injection H as <-. do 2 eexists. split; [reflexivity | split; reflexivity].
  - repeat match type of H with context [if String.eqb ?a ?b then _ else _] =>
      destruct (String.eqb a b) end;
    injection H as <-; (do 2 eexists; split; [reflexivity | split; reflexivity]).
Qed.

Lemma plan_for_intent_keys json_loads obj_len llm intent prompt context v :
  plan_for_intent json_loads obj_len llm intent prompt context = Ok v ->
  exists kvs l, v = PDict kvs /\ dget kvs "agents" = Some (PList l) /\ dget kvs "confidence" = None.
Proof.
  unfold plan_for_intent.
  destruct (has_data obj_len context) as [hd |]; cbn [bind]; [| discriminate].
  destruct hd; [apply default_plan_keys |].
  destruct llm as [generate |]; [| apply default_plan_keys].
  destruct (llm_attempt json_loads generate intent prompt) as [v' |] eqn:Hl; [| apply default_plan_keys].
  intros H; injection H as <-. unfold llm_attempt in Hl.
  destruct (generate (prompt_template prompt)) as [raw |]; cbn [bind] in Hl; [| discriminate].
  destruct (match raw with PStr s => Ok (extract_json s) | _ => Err AttributeError end) as [text |];
    cbn [bind] in Hl; [| discriminate].
  destruct (json_loads text) as [obj |]; cbn [bind] in Hl; [| discriminate].
  destruct (_validate_decision obj) as [validated |] eqn:Hv; cbn [bind] in Hl; [| discriminate].
  unfold _validate_decision in Hv.
  destruct obj as [| | | | | kvs |]; try discriminate Hv.
  destruct (dget kvs "agents") as [[| | | | l | |] |]; try discriminate Hv.
  destruct (mapM validate_agent l) as [normalized |]; cbn [bind] in Hv; [| discriminate Hv].
  injection Hv as <-. injection Hl as <-. do 2 eexists. split; [reflexivity | split; reflexivity].
Qed.

Section Props.
Variables (w : world) (rt : runtime) (HAS_LANGGRAPH : bool) (register : pyval -> string -> pyval -> bool)
          (json_loads : string -> res pyval) (pyfloat : Q -> pyval).

Lemma agent_plan_keys a intent prompt ctx v :
  agent_plan w json_loads a intent prompt ctx = Ok v ->
  exists kvs l, v = PDict kvs /\ dget kvs "agents" = Some (PList l) /\ dget kvs "confidence" = None.
Proof. apply plan_for_intent_keys. Qed.

Lemma run_shape a prompt mode context data v :
  run w rt HAS_LANGGRAPH register json_loads pyfloat a prompt mode context data = Ok v ->
  let r := Router.detect_intent (Some prompt) mode in
  let ctx := run_context register a prompt context data in
  exists decision out conf,
    v = PDict [(PStr "decision", decision); (PStr "execution", out);
               (PStr "metadata", PDict [(PStr "router_confidence", conf)])] /\
    (planner_decides r = false /\ decision = route_py pyfloat r /\ conf = pyfloat (Router.confidence r) \/
     planner_decides r = true /\ agent_plan w json_loads a (Router.intent r) prompt ctx = Ok decision /\ conf = PNone) /\
    (use_lg HAS_LANGGRAPH a = false -> execute w decision ctx = Ok out).
Proof.
  intros H r ctx. unfold run in H. fold ctx in H.
  destruct (decide w json_loads pyfloat a prompt mode ctx) as [decision |] eqn:Hd; cbn [bind] in H; [| discriminate H].
  assert (Hout : exists out, (if use_lg HAS_LANGGRAPH a then
                    match run_decision_graph w rt decision ctx with Ok o => Ok o | Err _ => execute w decision ctx end
                  else execute w decision ctx) = Ok out /\
                  (use_lg HAS_LANGGRAPH a = false -> execute w decision ctx = Ok out)).
  { destruct (if use_lg HAS_LANGGRAPH a then _ else _) as [out |] eqn:Ho; cbn [bind] in H; [| discriminate H].
    exists out. split; [reflexivity |]. intros Hu. rewrite Hu in Ho. exact Ho. }
  destruct Hout as [out [Ho Hu]]. rewrite Ho in H. cbn [bind] in H.
  unfold decide in Hd. fold r in Hd. fold (planner_decides r) in Hd.
  destruct (planner_decides r) eqn:Hp.
  - destruct (agent_plan w json_loads a (Router.intent r) prompt ctx) as [d0 |] eqn:Hpl; cbn [bind] in Hd; [| discriminate Hd].
    destruct (agent_plan_keys _ _ _ _ _ Hpl) as [kvs [l [-> [Hag Hconf]]]].
    cbn [py_get] in Hd. rewrite Hag in Hd. injection Hd as <-.
    cbn [py_get_or py_get bind] in H. rewrite Hconf in H. injection H as <-.
    exists (PDict kvs), out, PNone. split; [reflexivity |]. split; [right; auto | exact Hu].
  - cbn [bind py_get route_py dget String.eqb] in Hd. injection Hd as <-.
    cbn in H. injection H as <-.
    exists (route_py pyfloat r), out, (pyfloat (Router.confidence r)). split; [reflexivity |].
    split; [left; auto | exact Hu].
Qed.

(** [Agent.run] returns the decision, the execution and the router confidence: the router's decision with its confidence, or the planner's decision with no confidence when the router is unsure or gives no agents. *)
Theorem run_result a prompt mode context data v :
  run w rt HAS_LANGGRAPH register json_loads pyfloat a prompt mode context data = Ok v ->
  let r := Router.detect_intent (Some prompt) mode in
  let ctx := run_context register a prompt context data in
  exists decision out conf,
    v = PDict [(PStr "decision", decision); (PStr "execution", out);
               (PStr "metadata", PDict [(PStr "router_confidence", conf)])] /\
    (planner_decides r = false /\ decision = route_py pyfloat r /\ conf = pyfloat (Router.confidence r) \/
     planner_decides r = true /\ agent_plan w json_loads a (Router.intent r) prompt ctx = Ok decision /\ conf = PNone) /\
    (use_lg HAS_LANGGRAPH a = false -> execute w decision ctx = Ok out).
Proof. exact (run_shape a prompt mode context data v). Qed.

Lemma dget_set_other st k k' v :
  k <> k' -> dget (assoc_set st (PStr k) v) k' = dget st k'.
Proof.
  intros Hne. induction st as [| [k0 v0] rest IH]; simpl.
  - destruct (String.eqb k k') eqn:E; [apply String.eqb_eq in E; congruence | reflexivity].
  - destruct k0 as [| | | s | | |]; simpl; auto.
    destruct (String.eqb s k) eqn:E; simpl.
    + apply String.eqb_eq in E; subst s.
      destruct (String.eqb k k') eqn:E'; [apply String.eqb_eq in E'; congruence | reflexivity].
    + destruct (String.eqb s k'); auto.
Qed.

Lemma dget_set_same st k v : dget (assoc_set st (PStr k) v) k = Some v.
Proof. exact (OrchestratorProofs.dget_st_set st k v). Qed.

Ltac dget_simpl :=
  repeat first [ rewrite dget_set_same | rewrite dget_set_other by (intros ?; discriminate) ].

Lemma run_context_fields a prompt context data :
  let ctx := run_context register a prompt context data in
  dget ctx "conn" = Some (a_conn a) /\ dget ctx "prompt" = Some (PStr prompt) /\ dget ctx "llm" = Some (a_llm a) /\
  (is_none data = false -> dget ctx "full_df" = Some data) /\
  (is_none data = false -> is_none (a_conn a) = false -> register (a_conn a) (a_table_name a) data = true ->
     dget ctx "full_df_table_name" = Some (PStr (a_table_name a))) /\
  (forall k, ~ In k ["conn"; "prompt"; "llm"; "full_df"; "full_df_table_name"] -> dget ctx k = dget context k).
Proof.
  intros ctx. unfold ctx, run_context.
  set (c0 := assoc_set (assoc_set (assoc_set context (PStr "conn") (a_conn a)) (PStr "prompt") (PStr prompt))
               (PStr "llm") (a_llm a)).
  assert (Hc0 : dget c0 "conn" = Some (a_conn a) /\ dget c0 "prompt" = Some (PStr prompt) /\
                dget c0 "llm" = Some (a_llm a) /\
                forall k, ~ In k ["conn"; "prompt"; "llm"] -> dget c0 k = dget context k).
  { unfold c0. dget_simpl. repeat split; [reflexivity ..|].
    intros k Hk. simpl in Hk.
    rewrite !dget_set_other by (intros E; apply Hk; subst; auto). reflexivity. }
  destruct Hc0 as [Hc [Hp [Hl Hk0]]].
  assert (Hc1 : dget (assoc_set c0 (PStr "full_df") data) "conn" = Some (a_conn a))
    by (rewrite dget_set_other by (intros E; discriminate E); exact Hc).
  destruct (is_none data) eqn:Hd.
  - repeat split; auto; try (intros E; discriminate E).
    intros k Hk. apply Hk0. intros Hin. apply Hk. simpl in *. tauto.
  - unfold st_get. rewrite Hc1. cbn [opt_none].
    destruct (negb (is_none (a_conn a)) && register (a_conn a) (a_table_name a) data) eqn:Hr.
    + dget_simpl. repeat split; auto.
      intros k Hk. rewrite !dget_set_other by (intros E; apply Hk; subst; simpl; tauto).
      apply Hk0. intros Hin. apply Hk. simpl in *. tauto.
    + dget_simpl. repeat split; auto.
      * intros _ Hn Hreg. rewrite Hn, Hreg in Hr. discriminate Hr.
      * intros k Hk. rewrite !dget_set_other by (intros E; apply Hk; subst; simpl; tauto).
        apply Hk0. intros Hin. apply Hk. simpl in *. tauto.
Qed.

(** The context [Agent.run] builds holds the agent's conn and llm and the prompt, the data as full_df when given, the table name when the data is registered, and the caller's other keys. *)
Theorem run_context_spec a prompt context data :
  let ctx := run_context register a prompt context data in
  dget ctx "conn" = Some (a_conn a) /\ dget ctx "prompt" = Some (PStr prompt) /\ dget ctx "llm" = Some (a_llm a) /\
  (is_none data = false -> dget ctx "full_df" = Some data) /\
  (is_none data = false -> is_none (a_conn a) = false -> register (a_conn a) (a_table_name a) data = true ->
     dget ctx "full_df_table_name" = Some (PStr (a_table_name a))) /\
  (forall k, ~ In k ["conn"; "prompt"; "llm"; "full_df"; "full_df_table_name"] -> dget ctx k = dget context k).
Proof. exact (run_context_fields a prompt context data). Qed.



End Props.

Lemma run_result_witness :
  exists v, run world_stub no_runtime false no_register no_json float_obj agent_plain
              "How many orders per region" None [] PNone = Ok v /\
  exists decision out, v = PDict [(PStr "decision", decision); (PStr "execution", out);
                                  (PStr "metadata", PDict [(PStr "router_confidence", PObj "float")])] /\
                       execute world_stub decision
                         (run_context no_register agent_plain "How many orders per region" [] PNone) = Ok out.
Proof.
  eexists. split; [vm_compute; reflexivity |].
  destruct (run_result world_stub no_runtime false no_register no_json float_obj agent_plain
              "How many orders per region" None [] PNone _ ltac:(vm_compute; reflexivity))
    as [decision [out [conf [Hv [[[_ [_ Hc]] | [Hp _]] Hex]]]]].
  - exists decision, out. split; [rewrite Hv, Hc; reflexivity | apply Hex; reflexivity].
  - vm_compute in Hp. discriminate Hp.
Defined.



End AgentRunExtra.
